(** * sq-encoder: the n-ary category codec and the adaptive QR generator

    A shallow embedding of [sq-encoder.py].  Python integers are [Z],
    Python lists are [list], Python exceptions are values of [exn]
    carried by [except], and the mutable pieces (the attributes of a
    [NaryEncoder] object, the files written through [JsonFile]) are
    threaded explicitly. *)

From Stdlib Require Import ZArith List String Ascii Bool Lia DecimalString DecimalZ.
From stdpp Require Import base option list gmap strings.
From Equations Require Import Equations.
Import ListNotations.

Local Open Scope string_scope.
Local Open Scope list_scope.
Local Open Scope Z_scope.

(** ** Python exceptions *)

Inductive exc_class : Type :=
| ValueError
| IndexError
| FileNotFoundError
| ZeroDivisionError
| LibraryError (name : string).

Record exn : Type := Exn { exn_class : exc_class; exn_msg : string }.

Inductive except (A : Type) : Type :=
| Return (a : A)
| Raise (e : exn).
Arguments Return {A} a.
Arguments Raise {A} e.

(** ** Built-ins used by the source *)

Module Py.

(** [max(xs)] on a list of integers. *)
Definition max (xs : list Z) : except Z :=
  match xs with
  | [] => Raise (Exn ValueError "max() arg is an empty sequence")
  | x :: xs' => Return (fold_left Z.max xs' x)
  end.

(** [sum(xs)]: left to right, starting from 0. *)
Definition sum (xs : list Z) : Z := fold_left Z.add xs 0.

(** [enumerate(xs)]. *)
Definition enumerate {A} (xs : list A) : list (nat * A) :=
  combine (seq 0 (length xs)) xs.

(** [range(n - 1, -1, -1)] for an integer [n]. *)
Definition range_down (n : Z) : list nat := rev (seq 0 (Z.to_nat n)).

(** [zip(xs, ys)] stops at the shorter argument. *)
Definition zip {A B} (xs : list A) (ys : list B) : list (A * B) :=
  combine xs ys.

(** [a // b] and [a % b] on integers. *)
Definition floordiv (a b : Z) : except Z :=
  if b =? 0 then Raise (Exn ZeroDivisionError "integer division or modulo by zero")
  else Return (a / b).

Definition modulo (a b : Z) : except Z :=
  if b =? 0 then Raise (Exn ZeroDivisionError "integer division or modulo by zero")
  else Return (a mod b).

(** A list comprehension whose element expression can raise: elements are
    evaluated left to right and the first raise ends the evaluation. *)
Fixpoint comprehension {A B} (f : A -> except B) (xs : list A) : except (list B) :=
  match xs with
  | [] => Return []
  | x :: xs' =>
      match f x with
      | Raise e => Raise e
      | Return y =>
          match comprehension f xs' with
          | Raise e => Raise e
          | Return ys => Return (y :: ys)
          end
      end
  end.

Fixpoint index_from (k : Z) (x : string) (v : list string) : except Z :=
  match v with
  | [] => Raise (Exn ValueError ("'" ++ x ++ "' is not in list"))
  | y :: v' => if String.eqb y x then Return k else index_from (k + 1) x v'
  end.

(** [v.index(x)]: position of the first element equal to [x]. *)
Definition index (v : list string) (x : string) : except Z := index_from 0 x v.

(** [v[i]]: a negative subscript counts from the end of the list. *)
Definition getitem {A} (v : list A) (i : Z) : except A :=
  let n := Z.of_nat (length v) in
  let j := if i <? 0 then i + n else i in
  if (j <? 0) || (n <=? j) then Raise (Exn IndexError "list index out of range")
  else match nth_error v (Z.to_nat j) with
       | Some x => Return x
       | None => Raise (Exn IndexError "list index out of range")
       end.

(** [str(n)] and [int(s)] for an integer [n] and a string [s] of digits. *)
Definition str (n : Z) : string := NilZero.string_of_int (Z.to_int n).

Definition int (s : string) : option Z :=
  match NilEmpty.uint_of_string s with
  | Some u => Some (Z.of_uint u)
  | None => None
  end.

End Py.

(** ** JsonFile

    The documents this program stores are JSON arrays of integers, so a
    file's content is a [list Z]; the file system maps a path to the content
    of the file there, if there is one. *)

Abbreviation FileSystem := (gmap string (list Z)).

Module JsonFile.

(** [open(path, 'r')] raises when there is no file. *)
Definition load (path : string) (fs : FileSystem) : except (list Z) :=
  match fs !! path with
  | Some data => Return data
  | None => Raise (Exn FileNotFoundError "No such file or directory")
  end.

(** [open(path, 'w')] creates or truncates the file. *)
Definition dump (path : string) (data : list Z) (fs : FileSystem) : FileSystem :=
  <[path := data]> fs.

End JsonFile.

(** ** NaryEncoder *)

Record NaryEncoder : Type := MkNaryEncoder {
  json_path : string;
  ln : Z;
  mx : Z
}.

(** [NaryEncoder(json_path)] *)
Definition new_NaryEncoder (path : string) : NaryEncoder :=
  MkNaryEncoder path 0 0.

(** What a method can see and change: its object and the files. *)
Record World : Type := MkWorld { self : NaryEncoder; files : FileSystem }.

(** A method body: runs in a world, returns or raises, and leaves a world
    behind either way (an assignment made before a raise stays made). *)
Definition method (A : Type) : Type := World -> except A * World.

Definition ret {A} (a : A) : method A := fun w => (Return a, w).

Definition bind {A B} (m : method A) (k : A -> method B) : method B :=
  fun w => match m w with
           | (Return a, w') => k a w'
           | (Raise e, w') => (Raise e, w')
           end.

Definition lift {A} (r : except A) : method A := fun w => (r, w).

Declare Scope method_scope.
Delimit Scope method_scope with method.
Notation "x <- m ;; k" := (bind m (fun x => k))
  (at level 100, m at next level, right associativity) : method_scope.
Notation "m ;;; k" := (bind m (fun _ => k))
  (at level 100, right associativity) : method_scope.

Definition get_self : method NaryEncoder := fun w => (Return (self w), w).

Definition set_ln (v : Z) : method unit :=
  fun w => (Return tt,
            MkWorld (MkNaryEncoder (json_path (self w)) v (mx (self w))) (files w)).

Definition set_mx (v : Z) : method unit :=
  fun w => (Return tt,
            MkWorld (MkNaryEncoder (json_path (self w)) (ln (self w)) v) (files w)).

Definition file_load (path : string) : method (list Z) :=
  fun w => (JsonFile.load path (files w), w).

Definition file_dump (path : string) (data : list Z) : method unit :=
  fun w => (Return tt, MkWorld (self w) (JsonFile.dump path data (files w))).

(** [a, b = xs] *)
Definition unpack2 (xs : list Z) : except (Z * Z) :=
  match xs with
  | [a; b] => Return (a, b)
  | [] | [_] => Raise (Exn ValueError "not enough values to unpack")
  | _ => Raise (Exn ValueError "too many values to unpack")
  end.

Local Open Scope method_scope.

(** [NaryEncoder.encode] *)
Definition encode (l l_master : list Z) : method Z :=
  set_ln (Z.of_nat (length l)) ;;;
  m <- lift (Py.max l_master) ;;
  set_mx m ;;;
  s <- get_self ;;
  file_dump (json_path s) [ln s; mx s] ;;;
  let enc := map (fun '(i, x) => mx s ^ Z.of_nat i * x) (Py.enumerate l) in
  ret (Py.sum enc).

(** One turn of the loop of [decode], on the pair [(dec, remainder)]. *)
Definition decode_step (radix : Z) (i : nat) (st : list Z * Z) : except (list Z * Z) :=
  let '(dec, remainder) := st in
  let div := radix ^ Z.of_nat i in
  match Py.floordiv remainder div, Py.modulo remainder div with
  | Return q, Return r => Return (dec ++ [q], r)
  | Raise e, _ => Raise e
  | _, Raise e => Raise e
  end.

Fixpoint decode_loop (radix : Z) (ixs : list nat) (st : list Z * Z)
  : except (list Z * Z) :=
  match ixs with
  | [] => Return st
  | i :: ixs' =>
      match decode_step radix i st with
      | Return st' => decode_loop radix ixs' st'
      | Raise e => Raise e
      end
  end.

(** [NaryEncoder.decode] *)
Definition decode (enc : Z) : method (list Z) :=
  s <- get_self ;;
  (if (ln s =? 0) && (mx s =? 0)
   then data <- file_load (json_path s) ;;
        p <- lift (unpack2 data) ;;
        set_ln (fst p) ;;;
        set_mx (snd p)
   else ret tt) ;;;
  s <- get_self ;;
  r <- lift (decode_loop (mx s) (Py.range_down (ln s)) ([], enc)) ;;
  ret (rev (fst r)).

Local Close Scope method_scope.

(** The sum the specification names: [sum over i of d[i] * radix^i]. *)
Definition positional_value (radix : Z) (d : list Z) : Z :=
  fold_right Z.add 0
    (map (fun i => nth i d 0 * radix ^ Z.of_nat i) (seq 0 (length d))).

(** ** CategoricalEncoder

    [category_dict] is an [OrderedDict]: the order of its entries is the
    order of [values()], so it is kept as an association list. *)

Abbreviation CategoryDict := (list (string * list string)).

Record CategoricalEncoder : Type := MkCategoricalEncoder {
  category_dict : CategoryDict
}.

(** [category_dict.values()] *)
Definition values (d : CategoryDict) : list (list string) := map snd d.

Module Categorical.

(** [CategoricalEncoder.encode] *)
Definition encode (ce : CategoricalEncoder) (category_list : list string)
  : except (list Z * list Z) :=
  match Py.comprehension (fun '(l, v) => Py.index v l)
          (Py.zip category_list (values (category_dict ce))) with
  | Raise e => Raise e
  | Return lst =>
      let lst_master :=
        map (fun v => Z.of_nat (length v)) (values (category_dict ce)) in
      Return (lst, lst_master)
  end.

(** [CategoricalEncoder.decode] *)
Definition decode (ce : CategoricalEncoder) (category_indices : list Z)
  : except (list string) :=
  Py.comprehension (fun '(i, v) => Py.getitem v i)
    (Py.zip category_indices (values (category_dict ce))).

End Categorical.

(** Where a subscript lands once a negative one is counted from the end. *)
Definition position {A} (v : list A) (i : Z) : nat :=
  Z.to_nat (if i <? 0 then i + Z.of_nat (length v) else i).

(** The subscripts that [Categorical.decode] looks up: each index with the
    value list [zip] pairs it with. *)
Definition paired (ce : CategoricalEncoder) (category_indices : list Z)
  : list (Z * list string) :=
  Py.zip category_indices (values (category_dict ce)).

(** ** create_qr_code *)

(** The two message templates the generator recognises.  [re.match]
    anchors at the start of the message only.  A greedy [[a-z]+] (or
    [\d+]) followed by a literal that is not in the class matches exactly when
    the longest run of class characters is not empty and the literal comes
    next.

    Where the two matchers below stand for the source's [re.match]: the
    source pastes [mode] into the pattern as it is, so a mode with a
    character that means something to [re] is matched otherwise or not
    compiled at all; here the mode is compared as literal text, which is
    what [re] does for a mode made of letters and digits ([plain_word]).
    [\d] also matches decimal digits outside ASCII, which [is_digit] does
    not, so for the version template a message is to be ASCII
    ([ascii_text]).  [str] and [int] refuse numbers of more than 4300 digits
    ([int_str_ok]).  Statements that depend on a match or on a failure to
    match say so in their hypotheses. *)

Fixpoint strip_prefix (p s : string) : option string :=
  match p, s with
  | EmptyString, _ => Some s
  | String a p', String b s' => if Ascii.eqb a b then strip_prefix p' s' else None
  | String _ _, EmptyString => None
  end.

Fixpoint take_while (f : ascii -> bool) (s : string) : string * string :=
  match s with
  | EmptyString => (EmptyString, EmptyString)
  | String a s' =>
      if f a then let '(w, r) := take_while f s' in (String a w, r)
      else (EmptyString, s)
  end.

Definition is_lower (a : ascii) : bool :=
  let n := nat_of_ascii a in (97 <=? n)%nat && (n <=? 122)%nat.

Definition is_digit (a : ascii) : bool :=
  let n := nat_of_ascii a in (48 <=? n)%nat && (n <=? 57)%nat.

(** [re.match(prefix + '(' + class + '+)' + suffix, msg)], returning group 1. *)
Definition match_template (prefix : string) (class : ascii -> bool)
    (suffix msg : string) : option string :=
  match strip_prefix prefix msg with
  | None => None
  | Some rest =>
      let '(group, rest') := take_while class rest in
      match group, strip_prefix suffix rest' with
      | String _ _, Some _ => Some group
      | _, _ => None
      end
  end.

Definition mode_message (mode suggested : string) : string :=
  ("The content provided cannot be encoded with the mode " ++ mode
   ++ ", it can only be encoded as " ++ suggested ++ ".")%string.

Definition version_message (version : Z) (needed : string) : string :=
  ("The data will not fit inside a version " ++ Py.str version
   ++ " code with the given encoding and error level (the code must be at least a version "
   ++ needed ++ ").")%string.

Definition match_mode (mode msg : string) : option string :=
  match_template
    ("The content provided cannot be encoded with the mode " ++ mode
     ++ ", it can only be encoded as ")%string
    is_lower "." msg.

Definition match_version (version : Z) (msg : string) : option string :=
  match_template
    ("The data will not fit inside a version " ++ Py.str version
     ++ " code with the given encoding and error level (the code must be at least a version ")%string
    is_digit ")." msg.

Inductive payload : Type :=
| PText (s : string)
| PInt (n : Z).

(** What one pass through the body of the [while True] loop decides. *)
Inductive turn (Lib : Type) : Type :=
| Continue (version : Z) (mode : string) (lib : Lib)
| Finish (r : except unit) (lib : Lib).
Arguments Continue {Lib}.
Arguments Finish {Lib}.

(** What a call of [create_qr_code] leaves behind: how it ended, the calls
    it made to [pyqrcode.create] (the version and mode passed, in order),
    the values of [version] and [mode] when it ended, and the state of the
    library and its output. *)
Record qr_run (Lib : Type) : Type := MkRun {
  outcome : except unit;
  attempts : list (Z * string);
  last_version : Z;
  last_mode : string;
  lib_after : Lib
}.
Arguments MkRun {Lib}.
Arguments outcome {Lib}.
Arguments attempts {Lib}.
Arguments last_version {Lib}.
Arguments last_mode {Lib}.
Arguments lib_after {Lib}.

Section CreateQrCode.

(** The external encoder is a black box: [pyqrcode.create] returns a code
    object or raises, the object's [png] writes the image or raises, and
    both may depend on and change a state of their own. *)
Variable QRCode : Type.
Variable Lib : Type.
Variable pyqrcode_create :
  payload -> string -> Z -> string -> Lib -> except QRCode * Lib.
Variable png :
  QRCode -> string -> Z -> list Z -> list Z -> Lib -> except unit * Lib.

Variable value : payload.
Variable error : string.
Variable path : string.
Variable scale : Z.
Variable module_color : list Z.
Variable background : list Z.
Variable adjust : bool.
Variable max_iteration : Z.

(** The [try] / [except] / [else] statement. *)
Definition attempt (version : Z) (mode : string) (lib : Lib) : turn Lib :=
  match pyqrcode_create value error version mode lib with
  | (Raise ex, lib') =>
      if negb adjust then Finish (Raise ex) lib'
      else
        match match_mode mode (exn_msg ex) with
        | Some m => Continue version m lib'
        | None =>
            match match_version version (exn_msg ex) with
            | Some d =>
                match Py.int d with
                | Some v => Continue v mode lib'
                | None => Finish (Raise (Exn ValueError "invalid literal for int()")) lib'
                end
            | None => Finish (Raise ex) lib'
            end
        end
  | (Return code, lib') =>
      let '(r, lib'') := png code path scale module_color background lib' in
      Finish r lib''
  end.

(** The [while True] loop; [itercnt] is the counter on entry to the body. *)
Equations? qr_loop (itercnt version : Z) (mode : string)
    (log : list (Z * string)) (lib : Lib) : qr_run Lib
    by wf (Z.to_nat (max_iteration - itercnt)) lt :=
  qr_loop itercnt version mode log lib with Z_ge_dec (itercnt + 1) max_iteration := {
    | left _ =>
        MkRun (Raise (Exn ValueError "max iteration exceeded")) log version mode lib
    | right _ with attempt version mode lib := {
        | Finish r lib' => MkRun r (log ++ [(version, mode)]) version mode lib'
        | Continue version' mode' lib' =>
            qr_loop (itercnt + 1) version' mode' (log ++ [(version, mode)]) lib'
      }
  }.
Proof. lia. Qed.

Definition create_qr_code (version : Z) (mode : string) (lib : Lib) : qr_run Lib :=
  qr_loop 0 version mode [] lib.

End CreateQrCode.

(** A rejection the generator can act on: its message fits one of the two
    templates for the mode and version of the attempt. *)
Definition recognized (version : Z) (mode msg : string) : bool :=
  match match_mode mode msg, match_version version msg with
  | None, None => false
  | _, _ => true
  end.

(** Encoders and a renderer to run the generator against. *)
Module Double.

(** Rejects every attempt, asking for mode numeric whatever the mode is. *)
Definition never_satisfied
    (_ : payload) (_ : string) (_ : Z) (mode : string) (calls : nat)
  : except unit * nat :=
  (Raise (Exn ValueError (mode_message mode "numeric")), S calls).

(** Accepts in mode numeric and asks for it in any other mode. *)
Definition numeric_only
    (_ : payload) (_ : string) (_ : Z) (mode : string) (calls : nat)
  : except unit * nat :=
  if String.eqb mode "numeric" then (Return tt, S calls)
  else (Raise (Exn ValueError (mode_message mode "numeric")), S calls).

(** Accepts from version 7 on and asks for version 7 below it. *)
Definition too_small
    (_ : payload) (_ : string) (version : Z) (_ : string) (calls : nat)
  : except unit * nat :=
  if 7 <=? version then (Return tt, S calls)
  else (Raise (Exn ValueError (version_message version "7")), S calls).

(** Fails for a reason of its own. *)
Definition broken
    (_ : payload) (_ : string) (_ : Z) (_ : string) (calls : nat)
  : except unit * nat :=
  (Raise (Exn (LibraryError "TypeError") "Unable to determine the mode"), S calls).

Definition png (_ : unit) (_ : string) (_ : Z) (_ _ : list Z) (calls : nat)
  : except unit * nat :=
  (Return tt, calls).

End Double.

(** Two worlds to run the codec in: a new object with no file yet, and an
    object that encoded against another table before. *)
Definition fresh_world : World := MkWorld (new_NaryEncoder "params.json") ∅.

Definition stale_world : World :=
  MkWorld (MkNaryEncoder "params.json" 4 12) (<["params.json" := [4; 12]]> ∅).

(** The table of the specification's scenario. *)
Definition car_table : CategoricalEncoder :=
  MkCategoricalEncoder
    [("manufacturer", ["VW"; "Toyota"; "Renault"]); ("body", ["coupe"; "sedan"])].

(** The class of the exception a result carries, if it is one. *)
Definition raised_class {A} (r : except A) : option exc_class :=
  match r with
  | Return _ => None
  | Raise e => Some (exn_class e)
  end.

(** Whether every character of a string is in a class. *)
Fixpoint all_chars (f : ascii -> bool) (s : string) : bool :=
  match s with
  | EmptyString => true
  | String a s' => f a && all_chars f s'
  end.

Definition is_alnum (a : ascii) : bool :=
  let n := nat_of_ascii a in
  ((48 <=? n)%nat && (n <=? 57)%nat)
  || ((65 <=? n)%nat && (n <=? 90)%nat)
  || ((97 <=? n)%nat && (n <=? 122)%nat).

Definition is_ascii (a : ascii) : bool := (nat_of_ascii a <? 128)%nat.

(** A mode that [re] reads as literal text: letters and digits only. *)
Definition plain_word (s : string) : bool := all_chars is_alnum s.

(** A message with no character outside ASCII. *)
Definition ascii_text (s : string) : bool := all_chars is_ascii s.

(** CPython's limit on the digits of a number that [str] prints and [int]
    reads. *)
Definition max_str_digits : Z := 4300.

Definition int_str_ok (n : Z) : Prop :=
  Z.of_nat (String.length (Py.str (Z.abs n))) <= max_str_digits.

(** A rejection with one of the encoder's two corrections for the attempt
    at [version] and [mode]: the message begins with the mode template
    naming a mode in lowercase letters, or with the capacity template naming
    a version that is not negative. *)
Definition correction (version : Z) (mode msg : string) : Prop :=
  (exists suggested tail,
      suggested <> EmptyString /\
      all_chars is_lower suggested = true /\
      msg = (mode_message mode suggested ++ tail)%string) \/
  (exists needed tail,
      0 <= needed /\
      int_str_ok needed /\
      msg = (version_message version (Py.str needed) ++ tail)%string).

(** ** The script's pipeline

    The body of the [__main__] block up to the two equality checks, with
    the table and the chosen values as parameters: translate, encode with
    one [NaryEncoder], decode with a second one on the same path, translate
    back. *)

Record main_report : Type := MkReport {
  indices : list Z;
  master : list Z;
  encoded : Z;
  decoded : list Z;
  restored : list string
}.

Definition main_pipeline (carinfo : CategoryDict) (categories : list string)
    (fs : FileSystem) : except main_report * FileSystem :=
  let ce := MkCategoricalEncoder carinfo in
  match Categorical.encode ce categories with
  | Raise e => (Raise e, fs)
  | Return (indices, master) =>
      match encode indices master (MkWorld (new_NaryEncoder "params.json") fs) with
      | (Raise e, w) => (Raise e, files w)
      | (Return enc, w) =>
          match decode enc (MkWorld (new_NaryEncoder "params.json") (files w)) with
          | (Raise e, w') => (Raise e, files w')
          | (Return dec, w') =>
              match Categorical.decode ce dec with
              | Raise e => (Raise e, files w')
              | Return restored =>
                  (Return (MkReport indices master enc dec restored), files w')
              end
          end
      end
  end.

(** * Properties *)

(** ** The scenario of the specification, run *)

Example translate_toyota_coupe :
  Categorical.encode car_table ["Toyota"; "coupe"] = Return ([1; 0], [3; 2]).
Proof. reflexivity. Qed.

Example encode_toyota_coupe :
  encode [1; 0] [3; 2] fresh_world =
  (Return 1, MkWorld (MkNaryEncoder "params.json" 2 3) (<["params.json" := [2; 3]]> ∅)).
Proof. reflexivity. Qed.

Example decode_toyota_coupe :
  fst (decode 1 (MkWorld (new_NaryEncoder "params.json") (<["params.json" := [2; 3]]> ∅))) =
  Return [1; 0].
Proof. reflexivity. Qed.

Example restore_toyota_coupe :
  Categorical.decode car_table [1; 0] = Return ["Toyota"; "coupe"].
Proof. reflexivity. Qed.

Example single_category_boundary :
  fst (encode [0] [1] fresh_world) = Return 0 /\
  fst (decode 0 (snd (encode [0] [1] fresh_world))) = Return [0].
Proof. split; reflexivity. Qed.

(** A stale slot decodes to something else, silently. *)
Example decode_with_stale_parameters :
  fst (decode 1 (MkWorld (new_NaryEncoder "params.json") (files stale_world))) =
  Return [1; 0; 0; 0].
Proof. reflexivity. Qed.

(** A zero radix with more than one position divides by zero. *)
Example decode_zero_radix :
  fst (decode 5 (MkWorld (MkNaryEncoder "params.json" 2 0) ∅)) =
  Raise (Exn ZeroDivisionError "integer division or modulo by zero").
Proof. reflexivity. Qed.

Example capacity_mismatch_adopts_version :
  create_qr_code unit nat Double.too_small Double.png (PInt 12345) "L"
    "enc_data.png" 5 [0; 0; 0; 128] [255; 255; 255] true 10 1 "numeric" 0%nat =
  MkRun (Return tt) [(1, "numeric"); (7, "numeric")] 7 "numeric" 2%nat.
Proof. reflexivity. Qed.

Example unclassified_rejection_is_raised :
  create_qr_code unit nat Double.broken Double.png (PInt 12345) "L"
    "enc_data.png" 5 [0; 0; 0; 128] [255; 255; 255] true 10 1 "numeric" 0%nat =
  MkRun (Raise (Exn (LibraryError "TypeError") "Unable to determine the mode"))
    [(1, "numeric")] 1 "numeric" 1%nat.
Proof. reflexivity. Qed.

(** ** Positional sums *)

Section Positional.

Variable radix : Z.

Lemma fold_right_add_scale (k : Z) (xs : list Z) :
  fold_right Z.add 0 (map (Z.mul k) xs) = k * fold_right Z.add 0 xs.
Proof. induction xs as [|x xs IH]; simpl; [lia | rewrite IH; lia]. Qed.

Lemma positional_value_nil : positional_value radix [] = 0.
Proof. reflexivity. Qed.

Lemma positional_value_cons (x : Z) (d : list Z) :
  positional_value radix (x :: d) = x + radix * positional_value radix d.
Proof.
  unfold positional_value. simpl length. rewrite <- cons_seq, <- seq_shift.
  simpl. rewrite map_map, <- fold_right_add_scale, map_map.
  f_equal; [lia|]. f_equal. apply map_ext. intros i.
  rewrite Nat2Z.inj_succ, Z.pow_succ_r by lia. lia.
Qed.

Lemma positional_value_app (d1 d2 : list Z) :
  positional_value radix (d1 ++ d2) =
  positional_value radix d1 + radix ^ Z.of_nat (length d1) * positional_value radix d2.
Proof.
  induction d1 as [|x d1 IH].
  - simpl. rewrite positional_value_nil. lia.
  - cbn [app length]. rewrite !positional_value_cons, IH.
    rewrite Nat2Z.inj_succ, Z.pow_succ_r by lia. lia.
Qed.

Lemma sum_from (xs : list Z) (acc : Z) :
  fold_left Z.add xs acc = acc + fold_right Z.add 0 xs.
Proof.
  revert acc. induction xs as [|x xs IH]; intros acc; simpl; [lia|].
  rewrite IH. lia.
Qed.

Lemma enumerate_weights (k : nat) (l : list Z) :
  fold_right Z.add 0
    (map (fun '(i, x) => radix ^ Z.of_nat i * x) (combine (seq k (length l)) l)) =
  radix ^ Z.of_nat k * positional_value radix l.
Proof.
  revert k. induction l as [|x l IH]; intros k.
  - simpl. rewrite positional_value_nil. lia.
  - cbn [length seq combine map fold_right]. rewrite IH, positional_value_cons.
    rewrite Nat2Z.inj_succ, Z.pow_succ_r by lia. lia.
Qed.

(** The sum computed by [encode] is the positional sum of the spec. *)
Lemma sum_enumerate (l : list Z) :
  Py.sum (map (fun '(i, x) => radix ^ Z.of_nat i * x) (Py.enumerate l)) =
  positional_value radix l.
Proof.
  unfold Py.sum, Py.enumerate. rewrite sum_from, enumerate_weights. simpl. lia.
Qed.

Hypothesis radix_pos : 1 <= radix.

Lemma positional_value_bounds (d : list Z) :
  Forall (fun x => 0 <= x < radix) d ->
  0 <= positional_value radix d < radix ^ Z.of_nat (length d).
Proof.
  induction 1 as [|x d Hx _ IH].
  - rewrite positional_value_nil. simpl. lia.
  - rewrite positional_value_cons. cbn [length].
    rewrite Nat2Z.inj_succ, Z.pow_succ_r by lia. nia.
Qed.

(** A number has one representation only with digits below the radix. *)
Lemma positional_value_inj (d1 d2 : list Z) :
  length d1 = length d2 ->
  Forall (fun x => 0 <= x < radix) d1 ->
  Forall (fun x => 0 <= x < radix) d2 ->
  positional_value radix d1 = positional_value radix d2 ->
  d1 = d2.
Proof.
  revert d2. induction d1 as [|x d1 IH]; intros [|y d2] Hlen H1 H2 Heq;
    try discriminate; [reflexivity|].
  inversion H1 as [|? ? Hx H1']; inversion H2 as [|? ? Hy H2']; subst.
  rewrite !positional_value_cons in Heq.
  assert (Hd : positional_value radix d1 = positional_value radix d2) by nia.
  f_equal; [nia|]. apply IH; auto.
Qed.

(** The loop of [decode] peels the digits off, most significant first. *)
Lemma decode_loop_digits (n : nat) (acc : list Z) (rem : Z) :
  0 <= rem < radix ^ Z.of_nat n ->
  exists ds,
    decode_loop radix (rev (seq 0 n)) (acc, rem) = Return (acc ++ ds, 0) /\
    length ds = n /\
    Forall (fun x => 0 <= x < radix) ds /\
    positional_value radix (rev ds) = rem.
Proof.
  revert acc rem. induction n as [|n IH]; intros acc rem Hrem.
  - exists []. simpl in *. rewrite app_nil_r.
    assert (rem = 0) by lia. subst. repeat split; auto.
  - rewrite seq_S, rev_app_distr. cbn [rev app plus decode_loop decode_step].
    rewrite Nat2Z.inj_succ, Z.pow_succ_r in Hrem by lia.
    assert (Hdiv : 0 < radix ^ Z.of_nat n) by (apply Z.pow_pos_nonneg; lia).
    unfold Py.floordiv, Py.modulo.
    destruct (Z.eqb_spec (radix ^ Z.of_nat n) 0) as [E|_]; [lia|].
    pose proof (Z.mod_pos_bound rem _ Hdiv) as Hm.
    pose proof (Z.div_mod rem (radix ^ Z.of_nat n) ltac:(lia)) as Hdm.
    assert (Hq : 0 <= rem / radix ^ Z.of_nat n < radix).
    { split; [apply Z.div_pos; lia|]. apply Z.div_lt_upper_bound; lia. }
    destruct (IH (acc ++ [rem / radix ^ Z.of_nat n]) _ Hm)
      as (ds & Hrun & Hlen & Hall & Hval).
    exists (rem / radix ^ Z.of_nat n :: ds).
    rewrite Hrun, <- app_assoc. cbn [app length rev].
    repeat split; auto.
    rewrite positional_value_app, Hval, length_rev, Hlen.
    rewrite positional_value_cons, positional_value_nil. lia.
Qed.

End Positional.

(** ** Running [encode] and [decode] *)

Lemma max_spec (xs : list Z) (m : Z) :
  Py.max xs = Return m -> In m xs /\ Forall (fun k => k <= m) xs.
Proof.
  destruct xs as [|x xs]; [discriminate|]. simpl. intros [= <-].
  revert x. induction xs as [|y xs IH]; intros x; simpl.
  - split; [auto|]. constructor; [lia|constructor].
  - destruct (IH (Z.max x y)) as [Hin Hall].
    inversion Hall as [|? ? Hxy Hrest]; subst. split.
    + destruct Hin as [Hm|Hin]; [|right; right; exact Hin].
      rewrite <- Hm.
      destruct (Z.max_spec x y) as [[_ E]|[_ E]]; rewrite E; auto.
    + constructor; [lia|]. constructor; [lia|exact Hrest].
Qed.

Lemma max_nonempty (xs : list Z) : xs <> [] -> exists m, Py.max xs = Return m.
Proof. destruct xs; [congruence|]. intros _. eexists. reflexivity. Qed.

Lemma encode_run (l l_master : list Z) (w : World) (m : Z) :
  Py.max l_master = Return m ->
  encode l l_master w =
  (Return (positional_value m l),
   MkWorld (MkNaryEncoder (json_path (self w)) (Z.of_nat (length l)) m)
           (<[json_path (self w) := [Z.of_nat (length l); m]]> (files w))).
Proof.
  intros Hm. unfold encode, bind, lift, set_ln, set_mx, get_self, file_dump, ret.
  rewrite Hm. cbn. rewrite sum_enumerate. reflexivity.
Qed.

Lemma encode_raise (l : list Z) (w : World) :
  encode l [] w =
  (Raise (Exn ValueError "max() arg is an empty sequence"),
   MkWorld (MkNaryEncoder (json_path (self w)) (Z.of_nat (length l)) (mx (self w)))
           (files w)).
Proof. reflexivity. Qed.

(** [decode] with parameters in memory does not touch the files. *)
Lemma decode_in_memory (enc : Z) (w : World) :
  (ln (self w) =? 0) && (mx (self w) =? 0) = false ->
  decode enc w =
  (match decode_loop (mx (self w)) (Py.range_down (ln (self w))) ([], enc) with
   | Return r => Return (rev (fst r))
   | Raise e => Raise e
   end, w).
Proof.
  intros Hset. unfold decode, bind, get_self, lift, ret. cbn. rewrite Hset. cbn.
  destruct (decode_loop _ _ _); reflexivity.
Qed.

(** [decode] on a new object reads the parameters back. *)
Lemma decode_loaded (enc : Z) (path : string) (fs : FileSystem) (n m : Z) :
  fs !! path = Some [n; m] ->
  decode enc (MkWorld (new_NaryEncoder path) fs) =
  (match decode_loop m (Py.range_down n) ([], enc) with
   | Return r => Return (rev (fst r))
   | Raise e => Raise e
   end, MkWorld (MkNaryEncoder path n m) fs).
Proof.
  intros Hfile.
  unfold decode, bind, get_self, lift, ret, file_load, JsonFile.load, set_ln, set_mx.
  cbn. rewrite Hfile. cbn. destruct (decode_loop _ _ _); reflexivity.
Qed.

Lemma decode_loop_value (radix n enc : Z) :
  1 <= radix -> 0 <= enc < radix ^ n -> 0 <= n ->
  exists d,
    decode_loop radix (Py.range_down n) ([], enc) = Return (rev d, 0) /\
    Z.of_nat (length d) = n /\
    Forall (fun x => 0 <= x < radix) d /\
    positional_value radix d = enc.
Proof.
  intros Hr He Hn. unfold Py.range_down.
  destruct (decode_loop_digits radix Hr (Z.to_nat n) [] enc) as (ds & Hrun & Hlen & Hall & Hval).
  { rewrite Z2Nat.id by lia. exact He. }
  exists (rev ds). rewrite rev_involutive. repeat split; auto.
  - rewrite length_rev, Hlen. lia.
  - apply List.Forall_forall. intros x Hx. rewrite <- in_rev in Hx.
    rewrite List.Forall_forall in Hall. apply Hall. exact Hx.
Qed.

Lemma valid_selection_digits (v c : list Z) (m : Z) :
  Forall2 (fun x k => 0 <= x < k) v c ->
  Forall (fun k => k <= m) c ->
  Forall (fun x => 0 <= x < m) v.
Proof.
  induction 1 as [|x k v c Hx _ IH]; intros Hc; [constructor|].
  inversion Hc; subst. constructor; [lia|auto].
Qed.

(** ** The mixed-radix codec *)

(** C1. Round trip of the codec: for a non-empty selection vector [v] and
    a cardinality vector [c] of the same length with [0 <= v[i] < c[i]]
    everywhere, [encode v c] returns an integer [e], and [decode e] gives
    [v] back, both on the object that encoded (whatever the files are by
    then) and on a new object for the same path, as long as the storage
    slot still holds what that [encode] wrote. *)
Theorem decode_encode_round_trip (v c : list Z) (w : World) :
  v <> [] ->
  Forall2 (fun x k => 0 <= x < k) v c ->
  exists e,
    fst (encode v c w) = Return e /\
    (forall fs,
        fst (decode e (MkWorld (self (snd (encode v c w))) fs)) = Return v) /\
    (forall fs,
        fs !! json_path (self w) =
          files (snd (encode v c w)) !! json_path (self w) ->
        fst (decode e (MkWorld (new_NaryEncoder (json_path (self w))) fs)) =
          Return v).
Proof.
  intros Hne Hvalid.
  assert (Hc : c <> []) by (destruct Hvalid; congruence).
  destruct (max_nonempty c Hc) as [m Hm].
  destruct (max_spec c m Hm) as [_ Hle].
  pose proof (valid_selection_digits v c m Hvalid Hle) as Hdig.
  assert (Hpos : 1 <= m) by (destruct Hdig; [congruence|lia]).
  assert (Hlen : 1 <= Z.of_nat (length v)) by (destruct v; [congruence|cbn [length]; lia]).
  pose proof (positional_value_bounds m Hpos v Hdig) as Hb.
  destruct (decode_loop_value m (Z.of_nat (length v)) (positional_value m v))
    as (d & Hrun & Hdl & Hdd & Hdv); [lia..|].
  assert (Hd : d = v).
  { apply (positional_value_inj m Hpos); auto. lia. }
  subst d.
  rewrite (encode_run v c w m Hm). cbn [fst snd self files].
  exists (positional_value m v). split; [reflexivity|]. split.
  - intros fs. rewrite decode_in_memory; cbn [self ln mx fst].
    + rewrite Hrun. cbn. rewrite rev_involutive. reflexivity.
    + apply andb_false_intro1. apply Z.eqb_neq. lia.
  - intros fs Hslot. rewrite lookup_insert_eq in Hslot.
    rewrite (decode_loaded _ _ _ _ _ Hslot). cbn [fst].
    rewrite Hrun. cbn. rewrite rev_involutive. reflexivity.
Qed.

Lemma decode_encode_round_trip_witness :
  exists e,
    fst (encode [1; 0] [3; 2] (MkWorld (new_NaryEncoder "params.json") ∅)) = Return e /\
    (forall fs,
        fst (decode e (MkWorld
               (self (snd (encode [1; 0] [3; 2]
                             (MkWorld (new_NaryEncoder "params.json") ∅)))) fs)) =
          Return [1; 0]) /\
    (forall fs : FileSystem,
        fs !! "params.json" =
          files (snd (encode [1; 0] [3; 2]
                        (MkWorld (new_NaryEncoder "params.json") ∅))) !! "params.json" ->
        fst (decode e (MkWorld (new_NaryEncoder "params.json") fs)) = Return [1; 0]).
Proof.
  apply (decode_encode_round_trip [1; 0] [3; 2]
           (MkWorld (new_NaryEncoder "params.json") ∅)).
  - discriminate.
  - repeat constructor; lia.
Defined.

(** C9. Reverse round trip: with parameters [ln >= 1] and [mx >= 1] in
    memory and [0 <= e < mx ^ ln], [decode e] returns a vector of [ln]
    digits, every one in [[0, mx)], whose positional sum is [e]; the object
    and the files are left as they were. *)
Theorem decode_positional (s : NaryEncoder) (fs : FileSystem) (e : Z) :
  1 <= ln s ->
  1 <= mx s ->
  0 <= e < mx s ^ ln s ->
  exists d,
    decode e (MkWorld s fs) = (Return d, MkWorld s fs) /\
    Z.of_nat (length d) = ln s /\
    Forall (fun x => 0 <= x < mx s) d /\
    positional_value (mx s) d = e.
Proof.
  intros Hln Hmx He.
  destruct (decode_loop_value (mx s) (ln s) e) as (d & Hrun & Hlen & Hdig & Hval);
    [lia..|].
  exists d. rewrite decode_in_memory; cbn [self].
  - rewrite Hrun. cbn. rewrite rev_involutive. auto.
  - apply andb_false_intro1. apply Z.eqb_neq. lia.
Qed.

Lemma decode_positional_witness :
  exists d,
    decode 7 (MkWorld (MkNaryEncoder "params.json" 2 3) ∅) =
      (Return d, MkWorld (MkNaryEncoder "params.json" 2 3) ∅) /\
    Z.of_nat (length d) = 2 /\
    Forall (fun x => 0 <= x < 3) d /\
    positional_value 3 d = 7.
Proof.
  apply (decode_positional (MkNaryEncoder "params.json" 2 3) ∅ 7); cbn; lia.
Defined.

(** C4. Encode formula and radix: for a non-empty cardinality list (and any
    index list, empty or not) [encode] returns the sum over [i] of
    [l[i] * radix ^ i], where [radix] is the largest element of the
    cardinality list passed in this call; that radix, not the one the object
    held before, is what the object and the storage slot hold afterwards.
    Indices [[1, 0]] with cardinalities [[3, 2]] encode to 1. *)
Theorem encode_formula (l l_master : list Z) (w : World) :
  l_master <> [] ->
  (exists radix,
      In radix l_master /\
      Forall (fun k => k <= radix) l_master /\
      fst (encode l l_master w) = Return (positional_value radix l) /\
      mx (self (snd (encode l l_master w))) = radix /\
      files (snd (encode l l_master w)) !! json_path (self w) =
        Some [Z.of_nat (length l); radix]) /\
  fst (encode [1; 0] [3; 2] w) = Return 1.
Proof.
  intros Hne. split; [|reflexivity].
  destruct (max_nonempty l_master Hne) as [m Hm].
  destruct (max_spec l_master m Hm) as [Hin Hle].
  exists m. rewrite (encode_run l l_master w m Hm). cbn [fst snd self files mx].
  rewrite lookup_insert_eq. auto.
Qed.

Lemma encode_formula_witness :
  (exists radix,
      In radix [3; 2] /\
      Forall (fun k => k <= radix) [3; 2] /\
      fst (encode [1; 0] [3; 2] (MkWorld (MkNaryEncoder "params.json" 9 9) ∅)) =
        Return (positional_value radix [1; 0]) /\
      mx (self (snd (encode [1; 0] [3; 2]
                      (MkWorld (MkNaryEncoder "params.json" 9 9) ∅)))) = radix /\
      files (snd (encode [1; 0] [3; 2]
                    (MkWorld (MkNaryEncoder "params.json" 9 9) ∅))) !! "params.json" =
        Some [2; radix]) /\
  fst (encode [1; 0] [3; 2] (MkWorld (MkNaryEncoder "params.json" 9 9) ∅)) = Return 1.
Proof.
  apply (encode_formula [1; 0] [3; 2] (MkWorld (MkNaryEncoder "params.json" 9 9) ∅)).
  discriminate.
Defined.

(** C5. Persistence dependency: [decode] on a new object, when there is no
    file at the configured path, raises (the [FileNotFoundError] of [open])
    and returns no vector; nothing is changed. *)
Theorem decode_missing_parameters (enc : Z) (path : string) (fs : FileSystem) :
  fs !! path = None ->
  exists e,
    decode enc (MkWorld (new_NaryEncoder path) fs) =
      (Raise e, MkWorld (new_NaryEncoder path) fs) /\
    exn_class e = FileNotFoundError.
Proof.
  intros Hnone. eexists.
  unfold decode, bind, get_self, file_load, JsonFile.load. cbn. rewrite Hnone.
  split; reflexivity.
Qed.

Lemma decode_missing_parameters_witness :
  exists e,
    decode 1 (MkWorld (new_NaryEncoder "params.json") ∅) =
      (Raise e, MkWorld (new_NaryEncoder "params.json") ∅) /\
    exn_class e = FileNotFoundError.
Proof.
  apply (decode_missing_parameters 1 "params.json" ∅). apply lookup_empty.
Defined.

(** C8. Determinism of [encode]: a call that returns [n] for arguments
    [l], [l_master] returns [n] from any other state of an object on the
    same path and of the files, and leaves the same pair [[length, radix]]
    in the storage slot; calling it a second time right after the first
    gives the same result and changes nothing. *)
Theorem encode_deterministic (l l_master : list Z) (w1 w2 : World) (n : Z) :
  json_path (self w1) = json_path (self w2) ->
  fst (encode l l_master w1) = Return n ->
  fst (encode l l_master w2) = Return n /\
  files (snd (encode l l_master w2)) !! json_path (self w2) =
    files (snd (encode l l_master w1)) !! json_path (self w1) /\
  (exists radix,
      files (snd (encode l l_master w1)) !! json_path (self w1) =
        Some [Z.of_nat (length l); radix]) /\
  encode l l_master (snd (encode l l_master w1)) = encode l l_master w1.
Proof.
  intros Hpath Hret.
  destruct l_master as [|k ks]; [rewrite encode_raise in Hret; discriminate|].
  destruct (max_nonempty (k :: ks)) as [m Hm]; [discriminate|].
  rewrite (encode_run l _ w1 m Hm) in *. rewrite (encode_run l _ w2 m Hm).
  rewrite (encode_run l _ _ m Hm).
  cbn [fst snd self files json_path] in *.
  rewrite !lookup_insert_eq, insert_insert_eq. eauto.
Qed.

Lemma encode_deterministic_witness :
  fst (encode [1; 0] [3; 2] stale_world) = Return 1 /\
  files (snd (encode [1; 0] [3; 2] stale_world)) !! json_path (self stale_world) =
    files (snd (encode [1; 0] [3; 2] fresh_world)) !! json_path (self fresh_world) /\
  (exists radix,
      files (snd (encode [1; 0] [3; 2] fresh_world)) !! json_path (self fresh_world) =
        Some [Z.of_nat (length [1; 0]); radix]) /\
  encode [1; 0] [3; 2] (snd (encode [1; 0] [3; 2] fresh_world)) =
    encode [1; 0] [3; 2] fresh_world.
Proof.
  apply (encode_deterministic [1; 0] [3; 2] fresh_world stale_world 1); reflexivity.
Defined.

(** ** The categorical translator *)

Section Comprehension.

Context {A B : Type} (f : A -> except B).

Lemma comprehension_return (xs : list A) (ys : list B) :
  Py.comprehension f xs = Return ys <-> Forall2 (fun x y => f x = Return y) xs ys.
Proof.
  revert ys. induction xs as [|x xs IH]; intros ys; simpl.
  - split; [intros [= <-]; constructor | inversion 1; reflexivity].
  - destruct (f x) as [y|e] eqn:Hx.
    + destruct (Py.comprehension f xs) as [ys'|e'].
      * split.
        -- intros [= <-]. constructor; [exact Hx | apply IH; reflexivity].
        -- inversion 1 as [|? y0 ? ys0 Hy Hrest]; subst.
           apply IH in Hrest. congruence.
      * split; [discriminate|].
        inversion 1 as [|? y0 ? ys0 Hy Hrest]; subst.
        apply IH in Hrest. discriminate.
    + split; [discriminate|]. inversion 1; congruence.
Qed.

Lemma comprehension_raise (xs : list A) :
  (exists e, Py.comprehension f xs = Raise e) <->
  Exists (fun x => exists e, f x = Raise e) xs.
Proof.
  induction xs as [|x xs IH]; simpl.
  - split; [intros [e He]; discriminate | inversion 1].
  - destruct (f x) as [y|e] eqn:Hx.
    + destruct (Py.comprehension f xs) as [ys'|e'].
      * split; [intros [e He]; discriminate|].
        inversion 1 as [? ? [e He]|? ? Hrest]; subst; [congruence|].
        apply IH in Hrest. destruct Hrest; discriminate.
      * split; [|eauto]. intros _. apply Exists_cons_tl, IH. eauto.
    + split; [|eauto]. intros _. apply Exists_cons_hd. eauto.
Qed.

Lemma comprehension_raised_by (xs : list A) (e : exn) :
  Py.comprehension f xs = Raise e -> exists x, In x xs /\ f x = Raise e.
Proof.
  induction xs as [|x xs IH]; simpl; [discriminate|].
  destruct (f x) as [y|e0] eqn:Hx.
  - destruct (Py.comprehension f xs) as [ys'|e'] eqn:Hc; [discriminate|].
    intros [= <-]. destruct (IH eq_refl) as (x' & Hin & Hx'). eauto.
  - intros [= <-]. eauto.
Qed.

End Comprehension.

Lemma getitem_return {A} (v : list A) (i : Z) :
  - Z.of_nat (length v) <= i < Z.of_nat (length v) ->
  exists x, Py.getitem v i = Return x /\ nth_error v (position v i) = Some x.
Proof.
  intros Hi. unfold Py.getitem, position.
  set (j := if i <? 0 then i + Z.of_nat (length v) else i).
  assert (Hj : 0 <= j < Z.of_nat (length v)).
  { unfold j. destruct (Z.ltb_spec i 0); lia. }
  destruct (Z.ltb_spec j 0); [lia|]. destruct (Z.leb_spec (Z.of_nat (length v)) j); [lia|].
  cbn [orb]. destruct (nth_error v (Z.to_nat j)) as [x|] eqn:Hx; [eauto|].
  apply nth_error_None in Hx. lia.
Qed.

Lemma getitem_raise {A} (v : list A) (i : Z) :
  ~ (- Z.of_nat (length v) <= i < Z.of_nat (length v)) ->
  Py.getitem v i = Raise (Exn IndexError "list index out of range").
Proof.
  intros Hi. unfold Py.getitem.
  set (j := if i <? 0 then i + Z.of_nat (length v) else i).
  assert (Hj : j < 0 \/ Z.of_nat (length v) <= j).
  { unfold j. destruct (Z.ltb_spec i 0); lia. }
  destruct (Z.ltb_spec j 0); [reflexivity|].
  destruct (Z.leb_spec (Z.of_nat (length v)) j); [reflexivity|lia].
Qed.

Lemma getitem_cases {A} (v : list A) (i : Z) :
  (- Z.of_nat (length v) <= i < Z.of_nat (length v) /\
   exists x, Py.getitem v i = Return x /\ nth_error v (position v i) = Some x) \/
  (~ (- Z.of_nat (length v) <= i < Z.of_nat (length v)) /\
   Py.getitem v i = Raise (Exn IndexError "list index out of range")).
Proof.
  destruct (Z_le_dec (- Z.of_nat (length v)) i);
    destruct (Z_lt_dec i (Z.of_nat (length v)));
    (left; split; [lia | apply getitem_return; lia])
    || (right; split; [lia | apply getitem_raise; lia]).
Qed.

(** C3, as stated, fails: the index -1 is outside [[0, 2)] for a category
    of two values, and [decode] returns the last value instead of raising. *)
Lemma categorical_decode_negative_index :
  Exists (fun '(i, v) => ~ (0 <= i < Z.of_nat (length v))) (paired car_table [-1; 0]) /\
  Categorical.decode car_table [-1; 0] = Return ["Renault"; "coupe"].
Proof.
  split; [|reflexivity]. apply Exists_cons_hd. cbn. lia.
Qed.

(** C3, amended. [decode] pairs the indices with the categories in order,
    up to the shorter of the two.  It raises exactly when some paired index
    [i] is outside [[-len(v), len(v))] for its category's value list [v],
    and what it raises then is an [IndexError].  Otherwise it returns, for
    each pair in order, the value at the index, a negative index counting
    from the end; so when every paired index is in [[0, len(v))] it returns
    per category the value at the given index. *)
Theorem categorical_decode_spec (ce : CategoricalEncoder) (category_indices : list Z) :
  ((exists e, Categorical.decode ce category_indices = Raise e) <->
   Exists (fun '(i, v) => ~ (- Z.of_nat (length v) <= i < Z.of_nat (length v)))
     (paired ce category_indices)) /\
  (forall e, Categorical.decode ce category_indices = Raise e ->
             exn_class e = IndexError) /\
  (forall out, Categorical.decode ce category_indices = Return out ->
     Forall2 (fun '(i, v) x => nth_error v (position v i) = Some x)
       (paired ce category_indices) out) /\
  (Forall (fun '(i, v) => 0 <= i < Z.of_nat (length v)) (paired ce category_indices) ->
   exists out,
     Categorical.decode ce category_indices = Return out /\
     Forall2 (fun '(i, v) x => nth_error v (Z.to_nat i) = Some x)
       (paired ce category_indices) out).
Proof.
  unfold Categorical.decode. fold (paired ce category_indices).
  generalize (paired ce category_indices) as ps. intros ps.
  assert (Hret : forall out,
    Py.comprehension (fun '(i, v) => Py.getitem v i) ps = Return out ->
    Forall2 (fun '(i, v) x => nth_error v (position v i) = Some x) ps out).
  { intros out Hout. apply comprehension_return in Hout.
    induction Hout as [|[i v] x ps out Hx _ IH]; constructor; [|exact IH].
    destruct (getitem_cases v i) as [(_ & y & Hy & Hn)|(_ & Hr)]; congruence. }
  split; [|split; [|split; [exact Hret|]]].
  - clear Hret. rewrite comprehension_raise. split; intros H.
    + induction H as [[i v] ps [e He]|p ps _ IH]; [|apply Exists_cons_tl, IH].
      apply Exists_cons_hd. cbn in He.
      destruct (getitem_cases v i) as [(_ & y & Hy & _)|(Hn & _)]; [congruence|exact Hn].
    + induction H as [[i v] ps Hn|p ps _ IH]; [|apply Exists_cons_tl, IH].
      apply Exists_cons_hd. rewrite (getitem_raise v i Hn). eauto.
  - intros e He. apply comprehension_raised_by in He.
    destruct He as ([i v] & _ & He).
    destruct (getitem_cases v i) as [(_ & y & Hy & _)|(_ & Hr)]; [congruence|].
    rewrite Hr in He. injection He as <-. reflexivity.
  - intros Hall.
    destruct (Py.comprehension (fun '(i, v) => Py.getitem v i) ps) as [out|e] eqn:Hrun.
    + exists out. split; [reflexivity|].
      pose proof (Hret out eq_refl) as Hout. clear Hrun Hret.
      induction Hout as [|[i v] x ps out Hx _ IH]; [constructor|].
      inversion Hall as [|? ? Hi Hall']; subst.
      constructor; [|exact (IH Hall')].
      unfold position in Hx. destruct (Z.ltb_spec i 0); [lia|exact Hx].
    + exfalso. apply comprehension_raised_by in Hrun.
      destruct Hrun as ([i v] & Hin & He).
      rewrite List.Forall_forall in Hall. specialize (Hall _ Hin). cbn in Hall.
      destruct (getitem_cases v i) as [(_ & y & Hy & _)|(Hn & _)]; [congruence|lia].
Qed.

Lemma categorical_decode_spec_witness :
  exists out,
    Categorical.decode car_table [1; 0] = Return out /\
    Forall2 (fun '(i, v) x => nth_error v (Z.to_nat i) = Some x)
      (paired car_table [1; 0]) out.
Proof.
  refine (proj2 (proj2 (proj2 (categorical_decode_spec car_table [1; 0]))) _).
  repeat constructor; cbn; lia.
Defined.

Lemma index_from_return (x : string) (v : list string) (k : Z) :
  In x v -> exists j, Py.index_from k x v = Return j.
Proof.
  revert k. induction v as [|y v IH]; intros k Hin; [destruct Hin|].
  simpl. destruct (String.eqb_spec y x) as [_|Hne]; [eauto|].
  destruct Hin as [Hy|Hin]; [congruence|]. apply IH. exact Hin.
Qed.

Lemma index_from_raise (x : string) (v : list string) (k : Z) (e : exn) :
  Py.index_from k x v = Raise e -> exn_class e = ValueError /\ ~ In x v.
Proof.
  revert k. induction v as [|y v IH]; intros k; simpl.
  - intros [= <-]. auto.
  - destruct (String.eqb_spec y x) as [_|Hne]; [discriminate|].
    intros He. destruct (IH _ He) as [Hc Hn]. split; [exact Hc|].
    intros [Hy|Hin]; [congruence|auto].
Qed.

(** C10. Length mismatch: when the selection list is shorter than the
    table and each of its entries is a value of the category [zip] pairs it
    with, [encode] returns; the index vector is as long as the selection
    list, and the cardinality vector holds the length of every category's
    value list, one entry per category.  Whatever the selection list, the
    only exception [encode] raises is the [ValueError] of [index] for an
    entry that is not in its category's list, and whenever it returns the
    cardinality vector has one entry per category. *)
Theorem categorical_encode_short_selection
    (ce : CategoricalEncoder) (category_list : list string) :
  (length category_list < length (category_dict ce))%nat ->
  Forall (fun '(l, v) => In l v) (Py.zip category_list (values (category_dict ce))) ->
  (exists lst lst_master,
      Categorical.encode ce category_list = Return (lst, lst_master) /\
      length lst = length category_list /\
      length lst_master = length (category_dict ce) /\
      lst_master = map (fun v => Z.of_nat (length v)) (values (category_dict ce))) /\
  (forall other lst lst_master,
      Categorical.encode ce other = Return (lst, lst_master) ->
      length lst = Nat.min (length other) (length (category_dict ce)) /\
      length lst_master = length (category_dict ce)) /\
  (forall other e,
      Categorical.encode ce other = Raise e ->
      exn_class e = ValueError /\
      Exists (fun '(l, v) => ~ In l v) (Py.zip other (values (category_dict ce)))).
Proof.
  intros Hshort Hvalid. unfold Categorical.encode, values, Py.zip in *.
  split; [|split].
  - destruct (Py.comprehension _ _) as [lst|e] eqn:Hrun.
    + exists lst, (map (fun v => Z.of_nat (length v)) (map snd (category_dict ce))).
      apply comprehension_return, Forall2_length in Hrun.
      rewrite length_combine, length_map in Hrun.
      rewrite !length_map. repeat split; auto. lia.
    + exfalso. apply comprehension_raised_by in Hrun.
      destruct Hrun as ([l v] & Hin & He).
      rewrite List.Forall_forall in Hvalid. specialize (Hvalid _ Hin). cbn in Hvalid.
      destruct (index_from_return l v 0 Hvalid) as [j Hj].
      unfold Py.index in He. congruence.
  - intros other lst lst_master.
    destruct (Py.comprehension _ _) as [lst'|e] eqn:Hrun; [|discriminate].
    intros [= <- <-]. apply comprehension_return, Forall2_length in Hrun.
    rewrite length_combine, length_map in Hrun. rewrite !length_map. auto.
  - intros other e.
    destruct (Py.comprehension _ _) as [lst'|e'] eqn:Hrun; [discriminate|].
    intros [= <-]. apply comprehension_raised_by in Hrun.
    destruct Hrun as ([l v] & Hin & He). unfold Py.index in He.
    apply index_from_raise in He. destruct He as [Hc Hn]. split; [exact Hc|].
    apply List.Exists_exists. exists (l, v). auto.
Qed.

Lemma categorical_encode_short_selection_witness :
  exists lst lst_master,
    Categorical.encode car_table ["Toyota"] = Return (lst, lst_master) /\
    length lst = 1%nat /\
    length lst_master = 2%nat /\
    lst_master = [3; 2].
Proof.
  refine (proj1 (categorical_encode_short_selection car_table ["Toyota"] _ _)).
  - cbn. lia.
  - constructor; [cbn; auto | constructor].
Defined.

(** ** The adaptive generator *)

Lemma string_app_assoc (a b c : string) :
  ((a ++ b) ++ c = a ++ (b ++ c))%string.
Proof.
  induction a as [|x a IH]; [reflexivity|].
  change (String x ((a ++ b) ++ c) = String x (a ++ (b ++ c)))%string.
  rewrite IH. reflexivity.
Qed.

Lemma strip_prefix_app (p s : string) : strip_prefix p (p ++ s)%string = Some s.
Proof.
  induction p as [|a p IH]; [reflexivity|].
  change (strip_prefix (String a p) (String a (p ++ s)%string) = Some s).
  cbn [strip_prefix]. rewrite Ascii.eqb_refl. exact IH.
Qed.

Lemma strip_prefix_app3 (a b c s : string) :
  strip_prefix (a ++ b ++ c)%string (a ++ b ++ c ++ s)%string = Some s.
Proof.
  rewrite <- (string_app_assoc b c s), <- (string_app_assoc a (b ++ c) s).
  apply strip_prefix_app.
Qed.

Lemma match_mode_numeric (mode : string) :
  match_mode mode (mode_message mode "numeric") = Some "numeric".
Proof.
  unfold match_mode, mode_message, match_template.
  rewrite strip_prefix_app3. reflexivity.
Qed.

Lemma digits_parse (s : string) :
  exists n, Py.int (fst (take_while is_digit s)) = Some n.
Proof.
  unfold Py.int.
  assert (H : exists u, NilEmpty.uint_of_string (fst (take_while is_digit s)) = Some u).
  { induction s as [|a s [u IH]]; simpl; [eauto|].
    destruct (is_digit a) eqn:Ha; [|simpl; eauto].
    destruct (take_while is_digit s) as [w r]. simpl in *. rewrite IH.
    destruct a as [[|] [|] [|] [|] [|] [|] [|] [|]]; try discriminate Ha;
      simpl; eauto. }
  destruct H as [u Hu]. rewrite Hu. eauto.
Qed.

Lemma match_version_parses (version : Z) (msg d : string) :
  match_version version msg = Some d -> exists v, Py.int d = Some v.
Proof.
  unfold match_version, match_template.
  destruct (strip_prefix _ msg) as [rest|]; [|discriminate].
  pose proof (digits_parse rest) as Hp.
  destruct (take_while is_digit rest) as [g r]. simpl in Hp.
  destruct g; [discriminate|]. destruct (strip_prefix _ r); [|discriminate].
  intros [= <-]. exact Hp.
Qed.

Section CreateQrCodeProperties.

Context {QRCode Lib : Type}
  (pyqrcode_create : payload -> string -> Z -> string -> Lib -> except QRCode * Lib)
  (png : QRCode -> string -> Z -> list Z -> list Z -> Lib -> except unit * Lib)
  (value : payload) (error path : string) (scale : Z)
  (module_color background : list Z).

Local Abbreviation attempt_ adjust :=
  (attempt QRCode Lib pyqrcode_create png value error path scale
     module_color background adjust).
Local Abbreviation loop_ adjust max_iteration :=
  (qr_loop QRCode Lib pyqrcode_create png value error path scale
     module_color background adjust max_iteration).
Local Abbreviation create_ adjust max_iteration :=
  (create_qr_code QRCode Lib pyqrcode_create png value error path scale
     module_color background adjust max_iteration).

(** One turn of the loop. *)
Lemma qr_loop_step (adjust : bool) (max_iteration itercnt version : Z)
    (mode : string) (log : list (Z * string)) (lib : Lib) :
  loop_ adjust max_iteration itercnt version mode log lib =
  if itercnt + 1 >=? max_iteration
  then MkRun (Raise (Exn ValueError "max iteration exceeded")) log version mode lib
  else match attempt_ adjust version mode lib with
       | Finish r lib' => MkRun r (log ++ [(version, mode)]) version mode lib'
       | Continue version' mode' lib' =>
           loop_ adjust max_iteration (itercnt + 1) version' mode'
             (log ++ [(version, mode)]) lib'
       end.
Proof.
  simp qr_loop.
  destruct (Z_ge_dec (itercnt + 1) max_iteration) as [H|H]; cbn;
    destruct (Z.geb_spec (itercnt + 1) max_iteration); try lia; [reflexivity|].
  destruct (attempt _ _ _ _ _ _ _ _ _ _ _ _ _ _); reflexivity.
Qed.

Lemma attempt_not_adjusted (version : Z) (mode : string) (lib : Lib) :
  attempt_ false version mode lib =
  match pyqrcode_create value error version mode lib with
  | (Raise ex, lib') => Finish (Raise ex) lib'
  | (Return code, lib') =>
      let '(r, lib'') := png code path scale module_color background lib' in
      Finish r lib''
  end.
Proof.
  unfold attempt. destruct (pyqrcode_create _ _ _ _ _) as [[code|ex] lib']; reflexivity.
Qed.

Lemma attempt_recognized (version : Z) (mode : string) (lib lib' : Lib) (ex : exn) :
  pyqrcode_create value error version mode lib = (Raise ex, lib') ->
  recognized version mode (exn_msg ex) = true ->
  exists version' mode', attempt_ true version mode lib = Continue version' mode' lib'.
Proof.
  intros Hrej Hrec. unfold attempt, recognized in *. rewrite Hrej. cbn [negb].
  destruct (match_mode mode (exn_msg ex)) as [m|]; [eauto|].
  destruct (match_version version (exn_msg ex)) as [d|] eqn:Hd; [|discriminate].
  destruct (match_version_parses _ _ _ Hd) as [v Hv]. rewrite Hv. eauto.
Qed.

(** When every attempt is rejected with a recognized correction, the loop
    entered with counter [itercnt] makes [max_iteration - 1 - itercnt]
    attempts (none if that is negative) and then raises. *)
Lemma always_rejected_attempts (max_iteration : Z) :
  (forall version mode lib, exists ex lib',
      pyqrcode_create value error version mode lib = (Raise ex, lib') /\
      recognized version mode (exn_msg ex) = true) ->
  forall (n : nat) (itercnt version : Z) (mode : string)
         (log : list (Z * string)) (lib : Lib),
    Z.to_nat (max_iteration - 1 - itercnt) = n ->
    outcome (loop_ true max_iteration itercnt version mode log lib) =
      Raise (Exn ValueError "max iteration exceeded") /\
    length (attempts (loop_ true max_iteration itercnt version mode log lib)) =
      (length log + n)%nat.
Proof.
  intros Hrej. induction n as [|n IH]; intros itercnt version mode log lib Hn;
    rewrite qr_loop_step; destruct (Z.geb_spec (itercnt + 1) max_iteration); try lia.
  - cbn. split; [reflexivity|lia].
  - destruct (Hrej version mode lib) as (ex & lib' & Hcall & Hrec).
    destruct (attempt_recognized _ _ _ _ _ Hcall Hrec) as (v' & m' & ->).
    destruct (IH (itercnt + 1) v' m' (log ++ [(version, mode)]) lib') as [Ho Hl]; [lia|].
    rewrite Ho, Hl, length_app. cbn. split; [reflexivity|lia].
Qed.

(** C7. Adaptation disabled: with [adjust] off the generator calls the
    encoder at most once.  Either the limit stops it before any call, or
    it makes the one call with the version and mode it was given; a
    rejection of that call, whatever its message, is raised to the caller
    as it is, with nothing rendered, and an accepted code is rendered. *)
Theorem adjust_disabled_no_retry (max_iteration version : Z) (mode : string) (lib : Lib) :
  (max_iteration <= 1 /\
   attempts (create_ false max_iteration version mode lib) = [] /\
   outcome (create_ false max_iteration version mode lib) =
     Raise (Exn ValueError "max iteration exceeded")) \/
  (1 < max_iteration /\
   attempts (create_ false max_iteration version mode lib) = [(version, mode)] /\
   match pyqrcode_create value error version mode lib with
   | (Raise ex, lib') =>
       outcome (create_ false max_iteration version mode lib) = Raise ex /\
       lib_after (create_ false max_iteration version mode lib) = lib'
   | (Return code, lib') =>
       (outcome (create_ false max_iteration version mode lib),
        lib_after (create_ false max_iteration version mode lib)) =
       png code path scale module_color background lib'
   end).
Proof.
  unfold create_qr_code. rewrite qr_loop_step.
  destruct (Z.geb_spec (0 + 1) max_iteration) as [Hge|Hlt].
  - left. cbn. repeat split; auto; lia.
  - right. rewrite attempt_not_adjusted.
    destruct (pyqrcode_create value error version mode lib) as [[code|ex] lib'].
    + destruct (png code path scale module_color background lib') as [r lib''].
      cbn. repeat split; auto; lia.
    + cbn. repeat split; auto; lia.
Qed.

(** C6. Convergence: started in mode binary with [adjust] on and a limit
    of at least 3, against an encoder that rejects the binary attempt with
    the mode message naming numeric and accepts the numeric attempt, the
    generator makes exactly two attempts, binary then numeric (one
    retry), renders the accepted code and returns with [mode] set to
    numeric. *)
Theorem mode_mismatch_converges (max_iteration version : Z)
    (lib lib1 lib2 lib3 : Lib) (ex : exn) (code : QRCode) :
  3 <= max_iteration ->
  pyqrcode_create value error version "binary" lib = (Raise ex, lib1) ->
  exn_msg ex = mode_message "binary" "numeric" ->
  pyqrcode_create value error version "numeric" lib1 = (Return code, lib2) ->
  png code path scale module_color background lib2 = (Return tt, lib3) ->
  create_ true max_iteration version "binary" lib =
  MkRun (Return tt) [(version, "binary"); (version, "numeric")] version "numeric" lib3.
Proof.
  intros Hmax Hfirst Hmsg Hsecond Hpng.
  unfold create_qr_code. rewrite qr_loop_step.
  destruct (Z.geb_spec (0 + 1) max_iteration); [lia|].
  unfold attempt at 1. rewrite Hfirst, Hmsg, match_mode_numeric. cbn [negb].
  rewrite qr_loop_step.
  destruct (Z.geb_spec (0 + 1 + 1) max_iteration); [lia|].
  unfold attempt. rewrite Hsecond, Hpng. reflexivity.
Qed.

End CreateQrCodeProperties.

Lemma mode_mismatch_converges_witness :
  create_qr_code unit nat Double.numeric_only Double.png (PText "12345") "L"
    "enc_data.png" 5 [0; 0; 0; 128] [255; 255; 255] true 10 1 "binary" 0%nat =
  MkRun (Return tt) [(1, "binary"); (1, "numeric")] 1 "numeric" 2%nat.
Proof.
  apply (mode_mismatch_converges Double.numeric_only Double.png (PText "12345") "L"
           "enc_data.png" 5 [0; 0; 0; 128] [255; 255; 255] 10 1 0%nat 1%nat 2%nat 2%nat
           (Exn ValueError (mode_message "binary" "numeric")) tt);
    [lia | reflexivity..].
Defined.

Lemma never_satisfied_recognized (version : Z) (mode : string) (lib : nat) :
  exists ex lib',
    Double.never_satisfied (PText "12345") "L" version mode lib = (Raise ex, lib') /\
    recognized version mode (exn_msg ex) = true.
Proof.
  eexists _, _. split; [reflexivity|].
  unfold recognized. cbn [exn_msg]. rewrite match_mode_numeric. reflexivity.
Qed.

(** Against [Double.never_satisfied], started in mode binary, the generator
    raises the max-iteration [ValueError] after [max_iteration - 1] attempts
    (none when [max_iteration <= 1]): with a limit of 3 the encoder is
    called twice. *)
Lemma never_satisfied_attempts :
  (forall max_iteration : Z,
      outcome (create_qr_code unit nat Double.never_satisfied Double.png (PText "12345")
                 "L" "enc_data.png" 5 [0; 0; 0; 128] [255; 255; 255] true
                 max_iteration 1 "binary" 0%nat) =
        Raise (Exn ValueError "max iteration exceeded") /\
      length (attempts
                (create_qr_code unit nat Double.never_satisfied Double.png (PText "12345")
                   "L" "enc_data.png" 5 [0; 0; 0; 128] [255; 255; 255] true
                   max_iteration 1 "binary" 0%nat)) =
        Z.to_nat (max_iteration - 1)) /\
  create_qr_code unit nat Double.never_satisfied Double.png (PText "12345")
    "L" "enc_data.png" 5 [0; 0; 0; 128] [255; 255; 255] true 3 1 "binary" 0%nat =
  MkRun (Raise (Exn ValueError "max iteration exceeded"))
    [(1, "binary"); (1, "numeric")] 1 "numeric" 2%nat.
Proof.
  split; [|reflexivity].
  intros max_iteration. unfold create_qr_code.
  apply (always_rejected_attempts Double.never_satisfied Double.png (PText "12345")
           "L" "enc_data.png" 5 [0; 0; 0; 128] [255; 255; 255] max_iteration
           never_satisfied_recognized (Z.to_nat (max_iteration - 1)) 0 1 "binary" [] 0%nat).
  f_equal. lia.
Qed.

(** * Further properties of the code *)

(** ** The codec beyond valid selections *)

Lemma decode_loop_digits_back (m : Z) (v : list Z) :
  Forall (fun x => 0 <= x < m) v ->
  decode_loop m (Py.range_down (Z.of_nat (length v))) ([], positional_value m v) =
  Return (rev v, 0).
Proof.
  intros Hdig. destruct v as [|x v]; [reflexivity|].
  assert (Hpos : 1 <= m) by (inversion Hdig; lia).
  pose proof (positional_value_bounds m Hpos _ Hdig) as Hb.
  destruct (decode_loop_value m (Z.of_nat (length (x :: v))) (positional_value m (x :: v)))
    as (d & Hrun & Hdl & Hdd & Hdv); [lia..|].
  assert (Hd : d = x :: v) by (apply (positional_value_inj m Hpos); auto; lia).
  subst d. exact Hrun.
Qed.

(** [decode] on an object whose parameters are the ones in its slot: with
    or without the load, the same parameters are used and nothing changes. *)
Lemma decode_consistent (enc : Z) (w : World) :
  files w !! json_path (self w) = Some [ln (self w); mx (self w)] ->
  decode enc w =
  (match decode_loop (mx (self w)) (Py.range_down (ln (self w))) ([], enc) with
   | Return r => Return (rev (fst r))
   | Raise e => Raise e
   end, w).
Proof.
  destruct w as [[path n m] fs]. cbn [self files json_path ln mx]. intros Hslot.
  destruct ((n =? 0) && (m =? 0)) eqn:Hunset.
  - unfold decode, bind, get_self, lift, ret, file_load, JsonFile.load, set_ln, set_mx.
    cbn. rewrite Hunset. cbn. rewrite Hslot. cbn.
    apply andb_prop in Hunset. destruct Hunset as [Hn Hm].
    apply Z.eqb_eq in Hn, Hm. subst n m.
    destruct (decode_loop _ _ _); reflexivity.
  - apply decode_in_memory. exact Hunset.
Qed.

(** X1. Round trip under the shared radix: what the round trip needs is
    that every index is in [[0, radix)] for [radix = max(l_master)]; the
    single cardinalities and the length of the cardinality list play no
    part, and the index list may be empty.  [decode] then returns the index
    list, on the object that encoded and on a new object for the same path,
    and leaves object and files as [encode] left them. *)
Theorem round_trip_shared_radix (v c : list Z) (w : World) (radix : Z) :
  Py.max c = Return radix ->
  Forall (fun x => 0 <= x < radix) v ->
  exists e w',
    encode v c w = (Return e, w') /\
    decode e w' = (Return v, w') /\
    decode e (MkWorld (new_NaryEncoder (json_path (self w))) (files w')) =
      (Return v, w').
Proof.
  intros Hm Hdig. rewrite (encode_run v c w radix Hm).
  eexists _, _. split; [reflexivity|].
  pose proof (decode_loop_digits_back radix v Hdig) as Hrun. split.
  - rewrite decode_consistent; cbn [self files json_path ln mx].
    + rewrite Hrun. cbn. rewrite rev_involutive. reflexivity.
    + apply lookup_insert_eq.
  - rewrite (decode_loaded _ _ _ (Z.of_nat (length v)) radix); [|apply lookup_insert_eq].
    rewrite Hrun. cbn. rewrite rev_involutive. reflexivity.
Qed.

Lemma round_trip_shared_radix_witness :
  exists e w',
    encode [2; 2; 0] [3; 1] fresh_world = (Return e, w') /\
    decode e w' = (Return [2; 2; 0], w') /\
    decode e (MkWorld (new_NaryEncoder (json_path (self fresh_world))) (files w')) =
      (Return [2; 2; 0], w').
Proof.
  apply (round_trip_shared_radix [2; 2; 0] [3; 1] fresh_world 3).
  - reflexivity.
  - repeat constructor; lia.
Defined.

Lemma decode_loop_total (radix : Z) (n : nat) (acc : list Z) (rem : Z) :
  radix <> 0 \/ (n <= 1)%nat ->
  exists ds r,
    decode_loop radix (rev (seq 0 n)) (acc, rem) = Return (acc ++ ds, r) /\
    length ds = n /\
    positional_value radix (rev ds) + r = rem /\
    ((1 <= n)%nat -> r = 0).
Proof.
  revert acc rem. induction n as [|n IH]; intros acc rem Hr.
  - exists [], rem. simpl. rewrite app_nil_r, positional_value_nil.
    repeat split; auto; lia.
  - rewrite seq_S, rev_app_distr. cbn [rev app plus decode_loop decode_step].
    assert (Hdiv : radix ^ Z.of_nat n <> 0).
    { destruct Hr as [Hr|Hn]; [apply Z.pow_nonzero; lia|].
      assert (n = 0%nat) by lia. subst n. cbn. lia. }
    unfold Py.floordiv, Py.modulo.
    destruct (Z.eqb_spec (radix ^ Z.of_nat n) 0) as [E|_]; [contradiction|].
    destruct (IH (acc ++ [rem / radix ^ Z.of_nat n]) (rem mod radix ^ Z.of_nat n))
      as (ds & r & Hrun & Hlen & Hval & Hzero).
    { destruct Hr as [Hr|Hn]; [left; exact Hr | right; lia]. }
    exists (rem / radix ^ Z.of_nat n :: ds), r.
    rewrite Hrun, <- app_assoc. cbn [app length rev].
    pose proof (Z.div_mod rem _ Hdiv) as Hdm.
    repeat split; auto.
    + rewrite positional_value_app, length_rev, Hlen.
      rewrite positional_value_cons, positional_value_nil. lia.
    + intros _. destruct n as [|n]; [|apply Hzero; lia].
      destruct ds; [|discriminate]. clear - Hval.
      change (Z.of_nat 0) with 0 in Hval. rewrite Z.pow_0_r, Z.mod_1_r in Hval.
      cbn in Hval. lia.
Qed.

(** X2. [decode] then [encode] is the identity on every integer: with
    [ln >= 1] in memory and a radix that is not 0 (or [ln = 1]), [decode]
    returns [ln] digits for any [enc], negative or beyond [mx ^ ln] as well,
    whose positional sum is [enc]; encoding them under that radix returns
    [enc].  Nothing is lost: what does not fit below the top position ends
    up in the top digit. *)
Theorem encode_decode_identity (s : NaryEncoder) (fs : FileSystem) (enc : Z) (w : World) :
  1 <= ln s ->
  mx s <> 0 \/ ln s = 1 ->
  exists d,
    decode enc (MkWorld s fs) = (Return d, MkWorld s fs) /\
    Z.of_nat (length d) = ln s /\
    positional_value (mx s) d = enc /\
    fst (encode d [mx s] w) = Return enc.
Proof.
  intros Hln Hmx.
  destruct (decode_loop_total (mx s) (Z.to_nat (ln s)) [] enc)
    as (ds & r & Hrun & Hlen & Hval & Hzero).
  { destruct Hmx as [Hmx|Hone]; [left; exact Hmx | right; lia]. }
  rewrite (Hzero ltac:(lia)) in *. exists (rev ds).
  rewrite decode_in_memory; cbn [self].
  - rewrite (encode_run (rev ds) [mx s] w (mx s) eq_refl).
    unfold Py.range_down. rewrite Hrun. cbn [app fst].
    rewrite length_rev, Hlen. split; [reflexivity|].
    split; [lia|]. split; [lia|]. f_equal. lia.
  - apply andb_false_intro1. apply Z.eqb_neq. lia.
Qed.

Lemma encode_decode_identity_witness :
  exists d,
    decode (-5) (MkWorld (MkNaryEncoder "params.json" 2 3) ∅) =
      (Return d, MkWorld (MkNaryEncoder "params.json" 2 3) ∅) /\
    Z.of_nat (length d) = 2 /\
    positional_value 3 d = -5 /\
    fst (encode d [3] fresh_world) = Return (-5).
Proof.
  apply (encode_decode_identity (MkNaryEncoder "params.json" 2 3) ∅ (-5) fresh_world);
    cbn; [lia | left; lia].
Defined.

(** X3. A zero radix: with [mx = 0] and [ln >= 2] in memory, as an
    [encode] against cardinalities whose largest is 0 leaves them, [decode]
    raises [ZeroDivisionError] for every argument and changes nothing. *)
Theorem decode_zero_radix_raises (s : NaryEncoder) (fs : FileSystem) (enc : Z) :
  2 <= ln s ->
  mx s = 0 ->
  decode enc (MkWorld s fs) =
  (Raise (Exn ZeroDivisionError "integer division or modulo by zero"), MkWorld s fs).
Proof.
  intros Hln Hmx. rewrite decode_in_memory; cbn [self].
  - rewrite Hmx. unfold Py.range_down.
    destruct (Z.to_nat (ln s)) as [|n] eqn:Hn; [lia|].
    rewrite seq_S, rev_app_distr. cbn [rev app plus decode_loop decode_step].
    unfold Py.floordiv. rewrite Z.pow_0_l by lia. reflexivity.
  - apply andb_false_intro1. apply Z.eqb_neq. lia.
Qed.

Lemma decode_zero_radix_raises_witness :
  decode 5 (snd (encode [0; 0] [0; 0] fresh_world)) =
  (Raise (Exn ZeroDivisionError "integer division or modulo by zero"),
   snd (encode [0; 0] [0; 0] fresh_world)).
Proof.
  apply (decode_zero_radix_raises
           (self (snd (encode [0; 0] [0; 0] fresh_world)))
           (files (snd (encode [0; 0] [0; 0] fresh_world))) 5); cbn; lia.
Defined.

(** X4. Parameters are loaded once: a [decode] on a new object that finds
    [[n, m]] in its slot, not both 0, leaves the object holding [n] and [m]
    (whether or not the decoding itself raised), and what that object
    decodes afterwards does not depend on the files any more, so a later
    [encode] of another object into the same slot goes unnoticed. *)
Theorem decode_loads_once (path : string) (fs fs' : FileSystem) (n m e e' : Z) :
  fs !! path = Some [n; m] ->
  n <> 0 \/ m <> 0 ->
  self (snd (decode e (MkWorld (new_NaryEncoder path) fs))) = MkNaryEncoder path n m /\
  fst (decode e' (MkWorld (self (snd (decode e (MkWorld (new_NaryEncoder path) fs)))) fs')) =
  fst (decode e' (MkWorld (MkNaryEncoder path n m) fs)).
Proof.
  intros Hslot Hset. rewrite (decode_loaded e path fs n m Hslot). cbn [snd self].
  split; [reflexivity|].
  assert (Hmem : (n =? 0) && (m =? 0) = false).
  { destruct Hset; [apply andb_false_intro1 | apply andb_false_intro2];
      apply Z.eqb_neq; assumption. }
  rewrite !decode_in_memory by exact Hmem. reflexivity.
Qed.

Lemma decode_loads_once_witness :
  self (snd (decode 1 (MkWorld (new_NaryEncoder "params.json") (files stale_world)))) =
    MkNaryEncoder "params.json" 4 12 /\
  fst (decode 7 (MkWorld
         (self (snd (decode 1 (MkWorld (new_NaryEncoder "params.json") (files stale_world)))))
         ∅)) =
  fst (decode 7 (MkWorld (MkNaryEncoder "params.json" 4 12) (files stale_world))).
Proof.
  apply (decode_loads_once "params.json" (files stale_world) ∅ 4 12 1 7).
  - reflexivity.
  - left. lia.
Defined.

(** X5. What the codec leaves alone: [encode] writes no file but the one
    at the object's path, [decode] writes no file at all, and neither
    changes the path of the object, return or raise. *)
Theorem codec_frame (l l_master : list Z) (enc : Z) (w : World) :
  (json_path (self (snd (encode l l_master w))) = json_path (self w) /\
   forall q : string,
     q <> json_path (self w) ->
     files (snd (encode l l_master w)) !! q = files w !! q) /\
  (json_path (self (snd (decode enc w))) = json_path (self w) /\
   files (snd (decode enc w)) = files w).
Proof.
  split.
  - destruct l_master as [|k ks].
    + rewrite encode_raise. cbn. auto.
    + destruct (max_nonempty (k :: ks)) as [m Hm]; [discriminate|].
      rewrite (encode_run l _ w m Hm). cbn [snd self files json_path].
      split; [reflexivity|]. intros q Hq. apply lookup_insert_ne. congruence.
  - destruct w as [[path n m] fs]. cbn [self files json_path].
    destruct ((n =? 0) && (m =? 0)) eqn:Hunset.
    + unfold decode, bind, get_self, lift, ret, file_load, JsonFile.load, set_ln, set_mx.
      cbn. rewrite Hunset. cbn. destruct (fs !! path) as [data|]; cbn; [|auto].
      destruct (unpack2 data) as [[a b]|e]; cbn; [|auto].
      destruct (decode_loop _ _ _); cbn; auto.
    + rewrite decode_in_memory by exact Hunset. cbn. auto.
Qed.

(** X6. Distinct selections get distinct integers: two selection vectors
    that are valid for the same cardinality vector and encode to the same
    integer are equal. *)
Theorem encode_injective (v1 v2 c : list Z) (w1 w2 : World) (e : Z) :
  Forall2 (fun x k => 0 <= x < k) v1 c ->
  Forall2 (fun x k => 0 <= x < k) v2 c ->
  fst (encode v1 c w1) = Return e ->
  fst (encode v2 c w2) = Return e ->
  v1 = v2.
Proof.
  intros H1 H2 E1 E2.
  destruct c as [|k ks]; [inversion H1; inversion H2; reflexivity|].
  destruct (max_nonempty (k :: ks)) as [m Hm]; [discriminate|].
  destruct (max_spec _ m Hm) as [_ Hle].
  pose proof (valid_selection_digits _ _ m H1 Hle) as D1.
  pose proof (valid_selection_digits _ _ m H2 Hle) as D2.
  rewrite (encode_run _ _ _ m Hm) in E1. rewrite (encode_run _ _ _ m Hm) in E2.
  cbn [fst] in E1, E2.
  assert (Hpos : 1 <= m) by (inversion H1; subst; inversion D1; lia).
  apply (positional_value_inj m Hpos); auto.
  - apply Forall2_length in H1, H2. congruence.
  - congruence.
Qed.

Lemma encode_injective_witness : [1; 0] = [1; 0].
Proof.
  apply (encode_injective [1; 0] [1; 0] [3; 2] fresh_world stale_world 1);
    try reflexivity; repeat constructor; lia.
Defined.

(** X7. Size of the encoded value: for a selection vector valid for the
    cardinality vector, the integer [encode] returns is in
    [[0, radix ^ length)], with [radix] the largest cardinality. *)
Theorem encode_range (v c : list Z) (w : World) (e : Z) :
  Forall2 (fun x k => 0 <= x < k) v c ->
  fst (encode v c w) = Return e ->
  exists radix,
    Py.max c = Return radix /\ 0 <= e < radix ^ Z.of_nat (length v).
Proof.
  intros Hvalid He.
  destruct c as [|k ks]; [rewrite encode_raise in He; discriminate|].
  destruct (max_nonempty (k :: ks)) as [m Hm]; [discriminate|].
  destruct (max_spec _ m Hm) as [_ Hle].
  pose proof (valid_selection_digits _ _ m Hvalid Hle) as Hdig.
  rewrite (encode_run _ _ _ m Hm) in He. cbn [fst] in He. injection He as <-.
  exists m. split; [exact Hm|].
  apply positional_value_bounds; [inversion Hvalid; subst; inversion Hdig; lia | exact Hdig].
Qed.

Lemma encode_range_witness :
  exists radix,
    Py.max [3; 2] = Return radix /\ 0 <= 5 < radix ^ Z.of_nat (length [2; 1]).
Proof.
  apply (encode_range [2; 1] [3; 2] fresh_world 5).
  - repeat constructor; lia.
  - reflexivity.
Defined.

(** X8. A slot that does not hold two numbers: [decode] on a new object
    whose file holds an array of any other length raises [ValueError] from
    the unpacking, before anything is assigned. *)
Theorem decode_malformed_parameters
    (enc : Z) (path : string) (fs : FileSystem) (data : list Z) :
  fs !! path = Some data ->
  length data <> 2%nat ->
  exists e,
    decode enc (MkWorld (new_NaryEncoder path) fs) =
      (Raise e, MkWorld (new_NaryEncoder path) fs) /\
    exn_class e = ValueError.
Proof.
  intros Hslot Hlen.
  unfold decode, bind, get_self, lift, file_load, JsonFile.load. cbn. rewrite Hslot.
  destruct data as [|a [|b [|c data]]]; cbn; try (eexists; split; reflexivity).
  cbn in Hlen. congruence.
Qed.

Lemma decode_malformed_parameters_witness :
  exists e,
    decode 1 (MkWorld (new_NaryEncoder "params.json") (<["params.json" := [2; 3; 4]]> ∅)) =
      (Raise e, MkWorld (new_NaryEncoder "params.json") (<["params.json" := [2; 3; 4]]> ∅)) /\
    exn_class e = ValueError.
Proof.
  apply (decode_malformed_parameters 1 "params.json" _ [2; 3; 4]).
  - reflexivity.
  - cbn. lia.
Defined.

(** X9. A failed [encode] spoils the object: [encode] against an empty
    cardinality list raises [ValueError] and writes no file, but [ln] is
    already set to the length of the index list.  On a new object and for
    two or more indices, the object's next [decode] no longer reads the
    slot, whatever it holds, and raises [ZeroDivisionError]. *)
Theorem failed_encode_spoils_decode
    (l : list Z) (path : string) (fs : FileSystem) (enc : Z) :
  (2 <= length l)%nat ->
  raised_class (fst (encode l [] (MkWorld (new_NaryEncoder path) fs))) = Some ValueError /\
  files (snd (encode l [] (MkWorld (new_NaryEncoder path) fs))) = fs /\
  ln (self (snd (encode l [] (MkWorld (new_NaryEncoder path) fs)))) = Z.of_nat (length l) /\
  raised_class (fst (decode enc (snd (encode l [] (MkWorld (new_NaryEncoder path) fs))))) =
    Some ZeroDivisionError.
Proof.
  intros Hlen. rewrite encode_raise. cbn [fst snd self files ln mx json_path new_NaryEncoder].
  repeat split.
  rewrite decode_in_memory; cbn [self ln mx fst].
  - unfold Py.range_down. rewrite Nat2Z.id.
    destruct (length l) as [|n]; [lia|]. destruct n as [|n]; [lia|].
    rewrite seq_S, rev_app_distr. cbn [rev app plus decode_loop decode_step].
    unfold Py.floordiv. rewrite Z.pow_0_l by lia. reflexivity.
  - apply andb_false_intro1. apply Z.eqb_neq. lia.
Qed.

Lemma failed_encode_spoils_decode_witness :
  raised_class (fst (encode [1; 0] [] (MkWorld (new_NaryEncoder "params.json") (files stale_world)))) =
    Some ValueError /\
  files (snd (encode [1; 0] [] (MkWorld (new_NaryEncoder "params.json") (files stale_world)))) =
    files stale_world /\
  ln (self (snd (encode [1; 0] [] (MkWorld (new_NaryEncoder "params.json") (files stale_world))))) =
    Z.of_nat (length [1; 0]) /\
  raised_class (fst (decode 1 (snd (encode [1; 0] []
                   (MkWorld (new_NaryEncoder "params.json") (files stale_world)))))) =
    Some ZeroDivisionError.
Proof.
  apply (failed_encode_spoils_decode [1; 0] "params.json" (files stale_world) 1).
  cbn. lia.
Defined.

(** ** The translator and the pipeline *)

Lemma index_from_spec (x : string) (v : list string) (k j : Z) :
  Py.index_from k x v = Return j ->
  k <= j < k + Z.of_nat (length v) /\ nth_error v (Z.to_nat (j - k)) = Some x.
Proof.
  revert k. induction v as [|y v IH]; intros k; simpl; [discriminate|].
  destruct (String.eqb_spec y x) as [->|Hne].
  - intros [= <-]. rewrite Z.sub_diag. split; [lia|reflexivity].
  - intros Hj. destruct (IH _ Hj) as [Hr Hn]. split; [lia|].
    replace (Z.to_nat (j - k)) with (S (Z.to_nat (j - (k + 1)))) by lia. exact Hn.
Qed.

Lemma index_from_nodup (x : string) (v : list string) (k : Z) (n : nat) :
  NoDup v -> nth_error v n = Some x ->
  Py.index_from k x v = Return (k + Z.of_nat n).
Proof.
  revert k n. induction v as [|y v IH]; intros k n Hnd Hn; [destruct n; discriminate|].
  inversion Hnd as [|? ? Hy Hnd']; subst. destruct n as [|n]; simpl in *.
  - injection Hn as ->. rewrite String.eqb_refl. f_equal. lia.
  - destruct (String.eqb_spec y x) as [->|Hne].
    + exfalso. apply Hy. apply list_elem_of_In. eapply nth_error_In. exact Hn.
    + rewrite (IH (k + 1) n Hnd' Hn). f_equal. lia.
Qed.

Lemma getitem_at {A} (v : list A) (j : Z) (x : A) :
  0 <= j -> nth_error v (Z.to_nat j) = Some x -> Py.getitem v j = Return x.
Proof.
  intros Hj Hn.
  assert (Hlt : (Z.to_nat j < length v)%nat) by (apply nth_error_Some; congruence).
  destruct (getitem_return v j) as (y & Hy & Hpos); [lia|].
  unfold position in Hpos. destruct (Z.ltb_spec j 0); [lia|]. congruence.
Qed.

Lemma combine_firstn_length {A B} (xs : list A) (ys : list B) :
  combine (firstn (length ys) xs) ys = combine xs ys.
Proof.
  revert ys. induction xs as [|x xs IH]; intros [|y ys]; simpl; auto.
  rewrite IH. reflexivity.
Qed.

(** Looking the returned positions up gives the values back. *)
Lemma translate_back (sel : list string) (vs : list (list string)) (lst : list Z) :
  Py.comprehension (fun '(l, v) => Py.index v l) (combine sel vs) = Return lst ->
  Py.comprehension (fun '(i, v) => Py.getitem v i) (combine lst vs) =
  Return (firstn (length vs) sel).
Proof.
  revert vs lst. induction sel as [|x sel IH]; intros [|v vs] lst; simpl;
    try (intros [= <-]; reflexivity).
  unfold Py.index at 1. destruct (Py.index_from 0 x v) as [k|e] eqn:Hk; [|discriminate].
  destruct (Py.comprehension _ (combine sel vs)) as [lst'|e] eqn:Hrest; [|discriminate].
  intros [= <-]. simpl.
  destruct (index_from_spec _ _ _ _ Hk) as [Hr Hn]. rewrite Z.sub_0_r in Hn.
  rewrite (getitem_at v k x ltac:(lia) Hn), (IH vs lst' Hrest). reflexivity.
Qed.

(** The returned positions are below every bound on the cardinalities. *)
Lemma translate_digits (sel : list string) (vs : list (list string)) (lst : list Z) (m : Z) :
  Py.comprehension (fun '(l, v) => Py.index v l) (combine sel vs) = Return lst ->
  Forall (fun k => k <= m) (map (fun v => Z.of_nat (length v)) vs) ->
  Forall (fun x => 0 <= x < m) lst.
Proof.
  revert vs lst. induction sel as [|x sel IH]; intros [|v vs] lst; simpl;
    try (intros [= <-] _; constructor).
  unfold Py.index at 1. destruct (Py.index_from 0 x v) as [k|e] eqn:Hk; [|discriminate].
  destruct (Py.comprehension _ (combine sel vs)) as [lst'|e] eqn:Hrest; [|discriminate].
  intros [= <-] Hle. inversion Hle; subst.
  destruct (index_from_spec _ _ _ _ Hk) as [Hr _].
  constructor; [lia|]. eapply IH; eauto.
Qed.

Lemma translate_returns (sel : list string) (vs : list (list string)) :
  Forall (fun '(l, v) => In l v) (combine sel vs) ->
  exists lst, Py.comprehension (fun '(l, v) => Py.index v l) (combine sel vs) = Return lst.
Proof.
  intros Hvalid.
  destruct (Py.comprehension _ _) as [lst|e] eqn:Hrun; [eauto|].
  exfalso. apply comprehension_raised_by in Hrun.
  destruct Hrun as ([l v] & Hin & He).
  rewrite List.Forall_forall in Hvalid. specialize (Hvalid _ Hin). cbn in Hvalid.
  destruct (index_from_return l v 0 Hvalid) as [j Hj].
  unfold Py.index in He. congruence.
Qed.

(** X10. Round trip of the translator: when [encode] returns an index
    vector, [decode] of that vector returns the chosen values that were
    paired with a category, that is the first [len(category_dict)] of
    them, and all of them when there are no more values than categories,
    also when a value occurs twice in its category's list. *)
Theorem categorical_decode_encode
    (ce : CategoricalEncoder) (category_list : list string) (lst lst_master : list Z) :
  Categorical.encode ce category_list = Return (lst, lst_master) ->
  Categorical.decode ce lst =
    Return (firstn (length (category_dict ce)) category_list) /\
  ((length category_list <= length (category_dict ce))%nat ->
   Categorical.decode ce lst = Return category_list).
Proof.
  unfold Categorical.encode, Categorical.decode, Py.zip.
  destruct (Py.comprehension _ _) as [lst'|e] eqn:Hrun; [|discriminate].
  intros [= <- _]. rewrite (translate_back _ _ _ Hrun).
  unfold values. rewrite length_map. split; [reflexivity|].
  intros Hlen. rewrite firstn_all2 by exact Hlen. reflexivity.
Qed.

Lemma categorical_decode_encode_witness :
  Categorical.decode car_table [1; 0] =
    Return (firstn (length (category_dict car_table)) ["Toyota"; "coupe"; "leather"]) /\
  ((length ["Toyota"; "coupe"; "leather"] <= length (category_dict car_table))%nat ->
   Categorical.decode car_table [1; 0] = Return ["Toyota"; "coupe"; "leather"]).
Proof.
  apply (categorical_decode_encode car_table ["Toyota"; "coupe"; "leather"] [1; 0] [3; 2]).
  reflexivity.
Defined.

(** X11. The other round trip needs distinct values: when no category
    lists a value twice and every paired index is in [[0, len)], [decode]
    returns and [encode] of what it returned gives the paired indices back,
    with the cardinality of every category. *)
Theorem categorical_encode_decode
    (ce : CategoricalEncoder) (category_indices : list Z) :
  Forall (fun v => NoDup v) (values (category_dict ce)) ->
  Forall (fun '(i, v) => 0 <= i < Z.of_nat (length v)) (paired ce category_indices) ->
  exists out,
    Categorical.decode ce category_indices = Return out /\
    Categorical.encode ce out =
      Return (firstn (length (category_dict ce)) category_indices,
              map (fun v => Z.of_nat (length v)) (values (category_dict ce))).
Proof.
  unfold Categorical.decode, Categorical.encode, paired, Py.zip.
  rewrite <- (length_map snd (category_dict ce)). fold (values (category_dict ce)).
  generalize (values (category_dict ce)) as vs. intros vs Hnd Hrange.
  enough (H : exists out,
    Py.comprehension (fun '(i, v) => Py.getitem v i) (combine category_indices vs) =
      Return out /\
    Py.comprehension (fun '(l, v) => Py.index v l) (combine out vs) =
      Return (firstn (length vs) category_indices)).
  { destruct H as (out & Hd & He). exists out. rewrite Hd, He. auto. }
  revert vs Hnd Hrange.
  induction category_indices as [|i idx IH]; intros [|v vs] Hnd Hrange; simpl;
    try (exists []; split; reflexivity).
  inversion Hnd as [|? ? Hv Hnd']; subst.
  simpl in Hrange. inversion Hrange as [|? ? Hi Hrange']; subst.
  destruct (nth_error v (Z.to_nat i)) as [x|] eqn:Hx;
    [|apply nth_error_None in Hx; lia].
  destruct (IH vs Hnd' Hrange') as (out & Hd & He).
  exists (x :: out). rewrite (getitem_at v i x ltac:(lia) Hx), Hd.
  split; [reflexivity|]. simpl. unfold Py.index at 1.
  rewrite (index_from_nodup x v 0 _ Hv Hx), He.
  do 3 f_equal. lia.
Qed.

Lemma categorical_encode_decode_witness :
  exists out,
    Categorical.decode car_table [2; 1] = Return out /\
    Categorical.encode car_table out =
      Return (firstn (length (category_dict car_table)) [2; 1],
              map (fun v => Z.of_nat (length v)) (values (category_dict car_table))).
Proof.
  apply (categorical_encode_decode car_table [2; 1]).
  - repeat constructor; cbn; rewrite ?list_elem_of_In; cbn; intuition discriminate.
  - repeat constructor; cbn; lia.
Defined.

(** X12. When the translator fails: [encode] raises exactly when some
    chosen value is missing from the value list of the category it is
    paired with. *)
Theorem categorical_encode_raises_iff
    (ce : CategoricalEncoder) (category_list : list string) :
  (exists e, Categorical.encode ce category_list = Raise e) <->
  Exists (fun '(l, v) => ~ In l v) (Py.zip category_list (values (category_dict ce))).
Proof.
  unfold Categorical.encode.
  generalize (Py.zip category_list (values (category_dict ce))) as ps. intros ps.
  split.
  - intros [e He].
    destruct (Py.comprehension _ ps) as [lst|e'] eqn:Hrun; [discriminate|].
    apply comprehension_raised_by in Hrun. destruct Hrun as ([l v] & Hin & Hl).
    apply index_from_raise in Hl. apply List.Exists_exists. exists (l, v). tauto.
  - intros Hex.
    assert (Hr : exists e, Py.comprehension (fun '(l, v) => Py.index v l) ps = Raise e).
    { apply comprehension_raise.
      induction Hex as [[l v] ps Hn|p ps _ IH]; [|apply Exists_cons_tl, IH].
      apply Exists_cons_hd. unfold Py.index.
      destruct (Py.index_from 0 l v) as [j|e] eqn:Hj; [|eauto].
      exfalso. apply Hn. apply index_from_spec in Hj. destruct Hj as [_ Hj].
      eapply nth_error_In. exact Hj. }
    destruct Hr as [e He]. exists e. rewrite He. reflexivity.
Qed.

(** X13. Entries beyond the table are never looked at: [encode] and
    [decode] give the same result for a list and for its first
    [len(category_dict)] entries, so a surplus value that is in no category
    or a surplus index out of every range raises nothing. *)
Theorem categorical_surplus_ignored
    (ce : CategoricalEncoder) (category_list : list string) (category_indices : list Z) :
  Categorical.encode ce category_list =
    Categorical.encode ce (firstn (length (category_dict ce)) category_list) /\
  Categorical.decode ce category_indices =
    Categorical.decode ce (firstn (length (category_dict ce)) category_indices).
Proof.
  unfold Categorical.encode, Categorical.decode, Py.zip.
  rewrite <- (length_map snd (category_dict ce)). fold (values (category_dict ce)).
  rewrite !combine_firstn_length. split; reflexivity.
Qed.

(** X14. The script's pipeline restores what was chosen: for a table
    with at least one category and a list of no more values than
    categories, each a value of the category it is paired with, the
    pipeline returns; the second [NaryEncoder] decodes the indices the first
    one encoded, the translator restores the chosen values, and the slot
    holds the number of indices and the largest cardinality. *)
Theorem main_pipeline_restores
    (carinfo : CategoryDict) (categories : list string) (fs : FileSystem) :
  carinfo <> [] ->
  (length categories <= length carinfo)%nat ->
  Forall (fun '(l, v) => In l v) (Py.zip categories (values carinfo)) ->
  exists r fs' radix,
    main_pipeline carinfo categories fs = (Return r, fs') /\
    decoded r = indices r /\
    restored r = categories /\
    Py.max (master r) = Return radix /\
    fs' !! "params.json" = Some [Z.of_nat (length categories); radix].
Proof.
  intros Hne Hlen Hvalid. unfold main_pipeline, Categorical.encode, Categorical.decode.
  cbn [category_dict]. unfold Py.zip in *.
  destruct (translate_returns _ _ Hvalid) as [lst Hlst]. rewrite Hlst.
  set (cards := map (fun v => Z.of_nat (length v)) (values carinfo)).
  assert (Hcards : cards <> []).
  { unfold cards, values. destruct carinfo; [congruence|discriminate]. }
  destruct (max_nonempty cards Hcards) as [m Hm].
  destruct (max_spec cards m Hm) as [_ Hle].
  pose proof (translate_digits _ _ _ m Hlst Hle) as Hdig.
  pose proof (translate_back _ _ _ Hlst) as Hback.
  assert (Hn : length lst = length categories).
  { apply comprehension_return, Forall2_length in Hlst.
    rewrite length_combine in Hlst. unfold values in Hlst.
    rewrite length_map in Hlst. lia. }
  rewrite (encode_run lst cards _ m Hm). cbn [self files json_path new_NaryEncoder].
  rewrite (decode_loaded _ _ _ (Z.of_nat (length lst)) m) by apply lookup_insert_eq.
  rewrite (decode_loop_digits_back m lst Hdig). cbn [fst]. rewrite rev_involutive.
  rewrite Hback. unfold values. rewrite length_map, firstn_all2 by exact Hlen.
  eexists _, _, m. cbn [decoded indices restored master files].
  repeat split; auto. rewrite lookup_insert_eq, Hn. reflexivity.
Qed.

Lemma main_pipeline_restores_witness :
  exists r fs' radix,
    main_pipeline (category_dict car_table) ["Toyota"; "coupe"] (files stale_world) =
      (Return r, fs') /\
    decoded r = indices r /\
    restored r = ["Toyota"; "coupe"] /\
    Py.max (master r) = Return radix /\
    fs' !! "params.json" = Some [Z.of_nat (length ["Toyota"; "coupe"]); radix].
Proof.
  apply (main_pipeline_restores (category_dict car_table) ["Toyota"; "coupe"]
           (files stale_world)).
  - discriminate.
  - cbn. lia.
  - constructor; [cbn; auto | constructor; [cbn; auto | constructor]].
Defined.

(** ** The generator against any encoder *)

Lemma string_cons_app (a : ascii) (x y : string) :
  (String a x ++ y)%string = String a (x ++ y)%string.
Proof. reflexivity. Qed.

Lemma take_while_uint (u : Decimal.uint) (c : ascii) (s : string) :
  is_digit c = false ->
  take_while is_digit (NilEmpty.string_of_uint u ++ String c s)%string =
  (NilEmpty.string_of_uint u, String c s).
Proof.
  intros Hc.
  induction u; cbn [NilEmpty.string_of_uint]; rewrite ?string_cons_app;
    cbn [take_while]; rewrite ?IHu; [|reflexivity..].
  change (EmptyString ++ String c s)%string with (String c s).
  cbn [take_while]. rewrite Hc. reflexivity.
Qed.

(** [str] of a number that is not negative: digits, at least one, that
    [int] reads back. *)
Lemma str_nonneg (n : Z) :
  0 <= n ->
  exists u,
    Py.str n = NilEmpty.string_of_uint u /\ u <> Decimal.Nil /\ Z.of_uint u = n.
Proof.
  intros Hn. destruct n as [|p|p]; [| |lia].
  - exists (Decimal.D0 Decimal.Nil). repeat split; discriminate.
  - exists (Pos.to_uint p).
    pose proof (DecimalZ.of_to (Z.pos p)) as Hp. cbn [Z.to_int Z.of_int] in Hp.
    assert (Hnil : Pos.to_uint p <> Decimal.Nil).
    { intros E. rewrite E in Hp. discriminate. }
    repeat split; auto.
    unfold Py.str. cbn [Z.to_int NilZero.string_of_int]. unfold NilZero.string_of_uint.
    destruct (Pos.to_uint p); [congruence|reflexivity..].
Qed.

Lemma match_version_message (version needed : Z) :
  0 <= needed ->
  match_version version (version_message version (Py.str needed)) = Some (Py.str needed) /\
  Py.int (Py.str needed) = Some needed.
Proof.
  intros Hn. destruct (str_nonneg needed Hn) as (u & Hstr & Hnil & Hval).
  unfold match_version, version_message, match_template, Py.int.
  rewrite strip_prefix_app3, Hstr, take_while_uint by reflexivity.
  rewrite NilEmpty.usu, Hval. split; [|reflexivity].
  destruct u; [congruence|reflexivity..].
Qed.

Lemma take_while_all (f : ascii -> bool) (g : string) (c : ascii) (s : string) :
  all_chars f g = true ->
  f c = false ->
  take_while f (g ++ String c s)%string = (g, String c s).
Proof.
  intros Hg Hc. induction g as [|a g IH].
  - change (EmptyString ++ String c s)%string with (String c s).
    cbn [take_while]. rewrite Hc. reflexivity.
  - cbn [all_chars] in Hg. apply andb_prop in Hg. destruct Hg as [Ha Hg].
    rewrite string_cons_app. cbn [take_while]. rewrite Ha, (IH Hg). reflexivity.
Qed.

Lemma match_mode_message (mode suggested : string) :
  suggested <> EmptyString ->
  all_chars is_lower suggested = true ->
  match_mode mode (mode_message mode suggested) = Some suggested.
Proof.
  intros Hne Hlow. unfold match_mode, mode_message, match_template.
  rewrite strip_prefix_app3, take_while_all by (exact Hlow || reflexivity).
  destruct suggested; [congruence|reflexivity].
Qed.

Lemma string_app_nil_r (a : string) : (a ++ EmptyString)%string = a.
Proof.
  induction a as [|x a IH]; [reflexivity|].
  rewrite string_cons_app, IH. reflexivity.
Qed.

Lemma lower_plain (s : string) :
  all_chars is_lower s = true -> plain_word s = true.
Proof.
  unfold plain_word. induction s as [|a s IH]; [reflexivity|].
  cbn [all_chars]. intros H. apply andb_prop in H. destruct H as [Ha Hs].
  rewrite (IH Hs), andb_true_r. unfold is_alnum. unfold is_lower in Ha.
  rewrite Ha. apply orb_true_r.
Qed.

Lemma uint_digits (u : Decimal.uint) :
  all_chars is_digit (NilEmpty.string_of_uint u) = true.
Proof. induction u; cbn [NilEmpty.string_of_uint all_chars]; rewrite ?IHu; reflexivity. Qed.

(** A message that begins with a template, whatever follows it. *)
Lemma match_template_begins (prefix : string) (class : ascii -> bool)
    (g : string) (c : ascii) (rest tail : string) :
  g <> EmptyString ->
  all_chars class g = true ->
  class c = false ->
  match_template prefix class (String c rest)
    (prefix ++ g ++ String c rest ++ tail)%string = Some g.
Proof.
  intros Hne Hg Hc. unfold match_template.
  rewrite strip_prefix_app, string_cons_app, (take_while_all class g c _ Hg Hc).
  rewrite <- string_cons_app, strip_prefix_app.
  destruct g; [congruence|reflexivity].
Qed.

Lemma match_mode_begins (mode suggested tail : string) :
  suggested <> EmptyString ->
  all_chars is_lower suggested = true ->
  match_mode mode (mode_message mode suggested ++ tail)%string = Some suggested.
Proof.
  intros Hne Hlow. unfold match_mode, mode_message.
  match goal with
  | |- match_template ?p _ _ ?m = _ =>
      replace m with (p ++ suggested ++ String "." EmptyString ++ tail)%string
        by (rewrite !string_app_assoc; reflexivity)
  end.
  apply match_template_begins; [exact Hne | exact Hlow | reflexivity].
Qed.

Lemma match_version_begins (version needed : Z) (tail : string) :
  0 <= needed ->
  match_version version (version_message version (Py.str needed) ++ tail)%string =
    Some (Py.str needed) /\
  Py.int (Py.str needed) = Some needed.
Proof.
  intros Hn. destruct (str_nonneg needed Hn) as (u & Hstr & Hnil & Hval).
  split.
  - unfold match_version, version_message. rewrite Hstr.
    match goal with
    | |- match_template ?p _ _ ?m = _ =>
        replace m with (p ++ NilEmpty.string_of_uint u ++ String ")" "." ++ tail)%string
          by (rewrite !string_app_assoc; reflexivity)
    end.
    apply match_template_begins;
      [destruct u; [congruence|discriminate..] | apply uint_digits | reflexivity].
  - unfold Py.int. rewrite Hstr, NilEmpty.usu, Hval. reflexivity.
Qed.

Section CreateQrCodeAnyEncoder.

Context {QRCode Lib : Type}
  (pyqrcode_create : payload -> string -> Z -> string -> Lib -> except QRCode * Lib)
  (png : QRCode -> string -> Z -> list Z -> list Z -> Lib -> except unit * Lib)
  (value : payload) (error path : string) (scale : Z)
  (module_color background : list Z).

Local Abbreviation run_loop adjust max_iteration :=
  (qr_loop QRCode Lib pyqrcode_create png value error path scale
     module_color background adjust max_iteration).
Local Abbreviation run adjust max_iteration :=
  (create_qr_code QRCode Lib pyqrcode_create png value error path scale
     module_color background adjust max_iteration).

Lemma loop_attempts_bound (adjust : bool) (max_iteration : Z) (n : nat) :
  forall (itercnt version : Z) (mode : string) (log : list (Z * string)) (lib : Lib),
    Z.to_nat (max_iteration - 1 - itercnt) = n ->
    (length (attempts (run_loop adjust max_iteration itercnt version mode log lib))
     <= length log + n)%nat.
Proof.
  induction n as [|n IH]; intros itercnt version mode log lib Hn;
    rewrite qr_loop_step; destruct (Z.geb_spec (itercnt + 1) max_iteration); try lia.
  - cbn. lia.
  - destruct (attempt _ _ _ _ _ _ _ _ _ _ _ _ _ _) as [v' m' lib'|r lib'].
    + specialize (IH (itercnt + 1) v' m' (log ++ [(version, mode)]) lib' ltac:(lia)).
      rewrite length_app in IH. cbn [length] in IH. lia.
    + cbn. rewrite length_app. cbn. lia.
Qed.

(** X15. The loop is bounded whatever the encoder does: for any encoder,
    with or without adaptation, [create_qr_code] calls it at most
    [max_iteration - 1] times; with a limit of 1 or less it calls nothing
    and raises the max-iteration [ValueError], also for a payload the
    encoder would accept. *)
Theorem attempts_bounded (adjust : bool) (max_iteration version : Z) (mode : string) (lib : Lib) :
  (length (attempts
             (create_qr_code QRCode Lib pyqrcode_create png value error path scale
                module_color background adjust max_iteration version mode lib))
   <= Z.to_nat (max_iteration - 1))%nat /\
  (max_iteration <= 1 ->
   create_qr_code QRCode Lib pyqrcode_create png value error path scale
     module_color background adjust max_iteration version mode lib =
   MkRun (Raise (Exn ValueError "max iteration exceeded")) [] version mode lib).
Proof.
  unfold create_qr_code. split.
  - pose proof (loop_attempts_bound adjust max_iteration (Z.to_nat (max_iteration - 1))
                  0 version mode [] lib ltac:(f_equal; lia)) as H.
    cbn [length] in H. lia.
  - intros Hmax. rewrite qr_loop_step.
    destruct (Z.geb_spec (0 + 1) max_iteration); [reflexivity|lia].
Qed.

(** X16. An accepted first attempt: with a limit of at least 2, when the
    encoder accepts the first call, that is the only call; the code is
    rendered once and what the rendering does, return or raise, is the
    outcome.  An exception of the rendering is outside the [try]: it is not
    matched against the templates and nothing is retried. *)
Theorem first_attempt_accepted (adjust : bool) (max_iteration version : Z)
    (mode : string) (lib lib1 : Lib) (code : QRCode) :
  2 <= max_iteration ->
  pyqrcode_create value error version mode lib = (Return code, lib1) ->
  run adjust max_iteration version mode lib =
  MkRun (fst (png code path scale module_color background lib1))
    [(version, mode)] version mode
    (snd (png code path scale module_color background lib1)).
Proof.
  intros Hmax Hcall. unfold create_qr_code. rewrite qr_loop_step.
  destruct (Z.geb_spec (0 + 1) max_iteration); [lia|].
  unfold attempt. rewrite Hcall.
  destruct (png code path scale module_color background lib1). reflexivity.
Qed.

(** X17. An unclassified rejection is fatal with adaptation on: for a
    mode of letters and digits, a version that [str] prints and an ASCII
    message that fits neither template for that mode and version, the
    encoder's exception is raised to the caller as it is, after that one
    call, and nothing is rendered. *)
Theorem unclassified_rejection_fatal (max_iteration version : Z)
    (mode : string) (lib lib1 : Lib) (ex : exn) :
  2 <= max_iteration ->
  plain_word mode = true ->
  int_str_ok version ->
  ascii_text (exn_msg ex) = true ->
  pyqrcode_create value error version mode lib = (Raise ex, lib1) ->
  recognized version mode (exn_msg ex) = false ->
  run true max_iteration version mode lib =
  MkRun (Raise ex) [(version, mode)] version mode lib1.
Proof.
  intros Hmax _ _ _ Hcall Hrec. unfold create_qr_code. rewrite qr_loop_step.
  destruct (Z.geb_spec (0 + 1) max_iteration); [lia|].
  unfold attempt, recognized in *. rewrite Hcall. cbn [negb].
  destruct (match_mode mode (exn_msg ex)); [discriminate|].
  destruct (match_version version (exn_msg ex)); [discriminate|]. reflexivity.
Qed.

(** X18. Convergence on the version: with adaptation on, a limit of at
    least 3, a mode of letters and digits and versions that [str] prints and
    [int] reads, against an encoder that rejects the first attempt with the
    capacity message naming a version [needed >= 0] and accepts the attempt
    at that version, the generator makes exactly two attempts, the second
    with the version from the message and the mode unchanged, renders the
    accepted code and returns. *)
Theorem capacity_mismatch_converges (max_iteration version needed : Z) (mode : string)
    (lib lib1 lib2 lib3 : Lib) (ex : exn) (code : QRCode) :
  3 <= max_iteration ->
  plain_word mode = true ->
  int_str_ok version ->
  0 <= needed ->
  int_str_ok needed ->
  pyqrcode_create value error version mode lib = (Raise ex, lib1) ->
  exn_msg ex = version_message version (Py.str needed) ->
  pyqrcode_create value error needed mode lib1 = (Return code, lib2) ->
  png code path scale module_color background lib2 = (Return tt, lib3) ->
  run true max_iteration version mode lib =
  MkRun (Return tt) [(version, mode); (needed, mode)] needed mode lib3.
Proof.
  intros Hmax _ _ Hneeded _ Hfirst Hmsg Hsecond Hpng.
  destruct (match_version_message version needed Hneeded) as [Hmatch Hint].
  unfold create_qr_code. rewrite qr_loop_step.
  destruct (Z.geb_spec (0 + 1) max_iteration); [lia|].
  unfold attempt at 1. rewrite Hfirst, Hmsg. cbn [negb].
  change (match_mode mode (version_message version (Py.str needed))) with (@None string).
  rewrite Hmatch, Hint. rewrite qr_loop_step.
  destruct (Z.geb_spec (0 + 1 + 1) max_iteration); [lia|].
  unfold attempt. rewrite Hsecond, Hpng. reflexivity.
Qed.

(** X19. Convergence on the mode, in general: from any mode of letters
    and digits and for any mode name of lowercase letters in the message,
    with adaptation on and a limit of at least 3, a first attempt rejected
    with the mode message and a second attempt accepted in the named mode
    make exactly two attempts, the second in the named mode with the
    version unchanged, and the call returns after rendering. *)
Theorem mode_mismatch_adopts_named_mode (max_iteration version : Z)
    (mode suggested : string) (lib lib1 lib2 lib3 : Lib) (ex : exn) (code : QRCode) :
  3 <= max_iteration ->
  plain_word mode = true ->
  suggested <> EmptyString ->
  all_chars is_lower suggested = true ->
  pyqrcode_create value error version mode lib = (Raise ex, lib1) ->
  exn_msg ex = mode_message mode suggested ->
  pyqrcode_create value error version suggested lib1 = (Return code, lib2) ->
  png code path scale module_color background lib2 = (Return tt, lib3) ->
  run true max_iteration version mode lib =
  MkRun (Return tt) [(version, mode); (version, suggested)] version suggested lib3.
Proof.
  intros Hmax _ Hne Hlow Hfirst Hmsg Hsecond Hpng.
  unfold create_qr_code. rewrite qr_loop_step.
  destruct (Z.geb_spec (0 + 1) max_iteration); [lia|].
  unfold attempt at 1.
  rewrite Hfirst, Hmsg, (match_mode_message mode suggested Hne Hlow). cbn [negb].
  rewrite qr_loop_step.
  destruct (Z.geb_spec (0 + 1 + 1) max_iteration); [lia|].
  unfold attempt. rewrite Hsecond, Hpng. reflexivity.
Qed.

(** A corrected attempt goes round the loop again, with a mode and a
    version that are again in the matchers' range. *)
Lemma attempt_corrected (version : Z) (mode : string) (lib lib' : Lib) (ex : exn) :
  pyqrcode_create value error version mode lib = (Raise ex, lib') ->
  correction version mode (exn_msg ex) ->
  plain_word mode = true ->
  int_str_ok version ->
  exists version' mode',
    attempt QRCode Lib pyqrcode_create png value error path scale module_color
      background true version mode lib = Continue version' mode' lib' /\
    plain_word mode' = true /\
    int_str_ok version'.
Proof.
  intros Hcall Hcorr Hplain Hver. unfold attempt. rewrite Hcall. cbn [negb].
  destruct Hcorr as [(sug & tail & Hne & Hlow & ->)|(needed & tail & Hn & Hok & ->)].
  - rewrite (match_mode_begins mode sug tail Hne Hlow).
    exists version, sug. repeat split; auto. apply lower_plain. exact Hlow.
  - change (match_mode mode (version_message version (Py.str needed) ++ tail)%string)
      with (@None string).
    destruct (match_version_begins version needed tail Hn) as [Hmatch Hint].
    rewrite Hmatch, Hint. exists needed, mode. auto.
Qed.

Lemma loop_corrected_every_time (max_iteration : Z) :
  (forall version mode lib,
      plain_word mode = true ->
      int_str_ok version ->
      exists ex lib',
        pyqrcode_create value error version mode lib = (Raise ex, lib') /\
        correction version mode (exn_msg ex)) ->
  forall (n : nat) (itercnt version : Z) (mode : string)
         (log : list (Z * string)) (lib : Lib),
    plain_word mode = true ->
    int_str_ok version ->
    Z.to_nat (max_iteration - 1 - itercnt) = n ->
    outcome (run_loop true max_iteration itercnt version mode log lib) =
      Raise (Exn ValueError "max iteration exceeded") /\
    length (attempts (run_loop true max_iteration itercnt version mode log lib)) =
      (length log + n)%nat.
Proof.
  intros Hrej. induction n as [|n IH]; intros itercnt version mode log lib Hplain Hver Hn;
    rewrite qr_loop_step; destruct (Z.geb_spec (itercnt + 1) max_iteration); try lia.
  - cbn. split; [reflexivity|lia].
  - destruct (Hrej version mode lib Hplain Hver) as (ex & lib' & Hcall & Hcorr).
    destruct (attempt_corrected _ _ _ _ _ Hcall Hcorr Hplain Hver)
      as (v' & m' & -> & Hplain' & Hver').
    destruct (IH (itercnt + 1) v' m' (log ++ [(version, mode)]) lib' Hplain' Hver')
      as [Ho Hl]; [lia|].
    rewrite Ho, Hl, length_app. cbn. split; [reflexivity|lia].
Qed.

(** C2, amended.  With adaptation on, started with a mode of letters and
    digits and a version that [str] prints, against an encoder that rejects
    every attempt with one of its two corrections, [create_qr_code] raises
    the max-iteration [ValueError] when the counter reaches the limit, that
    is after exactly [max_iteration - 1] calls of the encoder (none when
    [max_iteration <= 1]), for every [max_iteration]. *)
Theorem rejected_until_limit (max_iteration version : Z) (mode : string) (lib : Lib) :
  plain_word mode = true ->
  int_str_ok version ->
  (forall version' mode' lib',
      plain_word mode' = true ->
      int_str_ok version' ->
      exists ex lib'',
        pyqrcode_create value error version' mode' lib' = (Raise ex, lib'') /\
        correction version' mode' (exn_msg ex)) ->
  outcome (create_qr_code QRCode Lib pyqrcode_create png value error path scale
             module_color background true max_iteration version mode lib) =
    Raise (Exn ValueError "max iteration exceeded") /\
  length (attempts
            (create_qr_code QRCode Lib pyqrcode_create png value error path scale
               module_color background true max_iteration version mode lib)) =
    Z.to_nat (max_iteration - 1).
Proof.
  intros Hplain Hver Hrej. unfold create_qr_code.
  apply (loop_corrected_every_time max_iteration Hrej (Z.to_nat (max_iteration - 1))
           0 version mode [] lib Hplain Hver).
  f_equal. lia.
Qed.

End CreateQrCodeAnyEncoder.

Lemma first_attempt_accepted_witness :
  create_qr_code unit nat Double.numeric_only Double.png (PInt 12345) "L"
    "enc_data.png" 5 [0; 0; 0; 128] [255; 255; 255] true 2 1 "numeric" 0%nat =
  MkRun (fst (Double.png tt "enc_data.png" 5 [0; 0; 0; 128] [255; 255; 255] 1%nat))
    [(1, "numeric")] 1 "numeric"
    (snd (Double.png tt "enc_data.png" 5 [0; 0; 0; 128] [255; 255; 255] 1%nat)).
Proof.
  apply (first_attempt_accepted Double.numeric_only Double.png (PInt 12345) "L"
           "enc_data.png" 5 [0; 0; 0; 128] [255; 255; 255] true 2 1 "numeric"
           0%nat 1%nat tt); [lia | reflexivity].
Defined.

Lemma unclassified_rejection_fatal_witness :
  create_qr_code unit nat Double.broken Double.png (PInt 12345) "L"
    "enc_data.png" 5 [0; 0; 0; 128] [255; 255; 255] true 10 1 "numeric" 0%nat =
  MkRun (Raise (Exn (LibraryError "TypeError") "Unable to determine the mode"))
    [(1, "numeric")] 1 "numeric" 1%nat.
Proof.
  apply (unclassified_rejection_fatal Double.broken Double.png (PInt 12345) "L"
           "enc_data.png" 5 [0; 0; 0; 128] [255; 255; 255] 10 1 "numeric" 0%nat 1%nat
           (Exn (LibraryError "TypeError") "Unable to determine the mode"));
    [lia | reflexivity | vm_compute; discriminate | reflexivity..].
Defined.

Lemma capacity_mismatch_converges_witness :
  create_qr_code unit nat Double.too_small Double.png (PInt 12345) "L"
    "enc_data.png" 5 [0; 0; 0; 128] [255; 255; 255] true 10 1 "numeric" 0%nat =
  MkRun (Return tt) [(1, "numeric"); (7, "numeric")] 7 "numeric" 2%nat.
Proof.
  apply (capacity_mismatch_converges Double.too_small Double.png (PInt 12345) "L"
           "enc_data.png" 5 [0; 0; 0; 128] [255; 255; 255] 10 1 7 "numeric"
           0%nat 1%nat 2%nat 2%nat (Exn ValueError (version_message 1 "7")) tt);
    [lia | reflexivity | vm_compute; discriminate | lia | vm_compute; discriminate
     | reflexivity..].
Defined.

Lemma mode_mismatch_adopts_named_mode_witness :
  create_qr_code unit nat Double.numeric_only Double.png (PInt 12345) "L"
    "enc_data.png" 5 [0; 0; 0; 128] [255; 255; 255] true 3 4 "kanji" 0%nat =
  MkRun (Return tt) [(4, "kanji"); (4, "numeric")] 4 "numeric" 2%nat.
Proof.
  apply (mode_mismatch_adopts_named_mode Double.numeric_only Double.png (PInt 12345) "L"
           "enc_data.png" 5 [0; 0; 0; 128] [255; 255; 255] 3 4 "kanji" "numeric"
           0%nat 1%nat 2%nat 2%nat (Exn ValueError (mode_message "kanji" "numeric")) tt);
    [lia | reflexivity | discriminate | reflexivity..].
Defined.

Lemma never_satisfied_corrects (version : Z) (mode : string) (lib : nat) :
  exists ex lib',
    Double.never_satisfied (PText "12345") "L" version mode lib = (Raise ex, lib') /\
    correction version mode (exn_msg ex).
Proof.
  eexists _, _. split; [reflexivity|]. left. exists "numeric", EmptyString.
  cbn [exn_msg]. rewrite string_app_nil_r. repeat split. discriminate.
Qed.

Lemma rejected_until_limit_witness :
  outcome (create_qr_code unit nat Double.never_satisfied Double.png (PText "12345")
             "L" "enc_data.png" 5 [0; 0; 0; 128] [255; 255; 255] true
             10 1 "binary" 0%nat) =
    Raise (Exn ValueError "max iteration exceeded") /\
  length (attempts
            (create_qr_code unit nat Double.never_satisfied Double.png (PText "12345")
               "L" "enc_data.png" 5 [0; 0; 0; 128] [255; 255; 255] true
               10 1 "binary" 0%nat)) =
    Z.to_nat (10 - 1).
Proof.
  apply (rejected_until_limit Double.never_satisfied Double.png (PText "12345")
           "L" "enc_data.png" 5 [0; 0; 0; 128] [255; 255; 255] 10 1 "binary" 0%nat).
  - reflexivity.
  - vm_compute. discriminate.
  - intros version' mode' lib' _ _. apply never_satisfied_corrects.
Defined.

(** C2, as stated, fails: [Double.never_satisfied] rejects every attempt
    with the mode correction, and with a limit of 3 the generator raises the
    max-iteration error after two calls of the encoder, not three. *)
Lemma limit_three_two_attempts :
  (forall (version : Z) (mode : string) (lib : nat),
      exists ex lib',
        Double.never_satisfied (PText "12345") "L" version mode lib = (Raise ex, lib') /\
        exn_msg ex = mode_message mode "numeric") /\
  outcome (create_qr_code unit nat Double.never_satisfied Double.png (PText "12345")
             "L" "enc_data.png" 5 [0; 0; 0; 128] [255; 255; 255] true
             3 1 "binary" 0%nat) =
    Raise (Exn ValueError "max iteration exceeded") /\
  attempts (create_qr_code unit nat Double.never_satisfied Double.png (PText "12345")
              "L" "enc_data.png" 5 [0; 0; 0; 128] [255; 255; 255] true
              3 1 "binary" 0%nat) =
    [(1, "binary"); (1, "numeric")] /\
  length (attempts
            (create_qr_code unit nat Double.never_satisfied Double.png (PText "12345")
               "L" "enc_data.png" 5 [0; 0; 0; 128] [255; 255; 255] true
               3 1 "binary" 0%nat)) <> 3%nat.
Proof.
  split; [|split; [reflexivity|split; [reflexivity|vm_compute; discriminate]]].
  intros version mode lib. eexists _, _. split; reflexivity.
Qed.
